(** * dynamic_forms.models: a shallow embedding

    The three models of [dynamic_forms/models.py] -- [FormModel],
    [FormFieldModel] and [FormModelData] -- are embedded as records with
    explicit state passing.  Python dictionaries are insertion-ordered
    association lists with unique keys; the dictionary that backs the
    [options] property lives in a small object store, because the code
    hands out aliases to it and mutates it in place.

    Library code ([json], [slugify], [escape], [force_text]) enters the
    development as section variables; reference instances that compute
    are given afterwards and are used for the concrete examples. *)

From Stdlib Require Import ZArith Lia Ascii String Decimal DecimalFacts
  DecimalPos.
From stdpp Require Import base option list strings gmap sorting.

Set Warnings "-register-all".
Local Open Scope string_scope.
Local Open Scope Z_scope.

(** ** Values *)

(** JSON-representable values, as [json.loads] produces them: [None],
    [bool], [int], [str], [list] and [dict].  Numerals with a fraction or
    an exponent are outside this fragment. *)
Inductive json : Type :=
  | JNull
  | JBool (b : bool)
  | JNum (z : Z)
  | JStr (s : string)
  | JArr (l : list json)
  | JObj (kvs : list (string * json)).

Global Instance json_inhabited : Inhabited json := populate JNull.

(** A Python [dict] (or [OrderedDict]) with string keys: pairs in
    insertion order. *)
Abbreviation dict V := (list (string * V)).

(** [d.get(k)] *)
Fixpoint dict_get {V} (k : string) (d : dict V) : option V :=
  match d with
  | [] => None
  | (k', v) :: d' => if String.eqb k k' then Some v else dict_get k d'
  end.

(** [d[k] = v]: an existing key keeps its place, a new key goes last. *)
Fixpoint dict_set {V} (k : string) (v : V) (d : dict V) : dict V :=
  match d with
  | [] => [(k, v)]
  | (k', v') :: d' =>
      if String.eqb k k' then (k', v) :: d' else (k', v') :: dict_set k v d'
  end.

(** What [del d[k]] leaves of [d]. *)
Definition dict_del {V} (k : string) (d : dict V) : dict V :=
  filter (λ kv, kv.1 ≠ k) d.

(** [d.keys()] *)
Definition dict_keys {V} (d : dict V) : list string := d.*1.

(** [d.update(other)]: the pairs of [other] are stored left to right. *)
Definition dict_update {V} (d other : dict V) : dict V :=
  foldl (λ acc kv, dict_set kv.1 kv.2 acc) d other.

(** [dict(pairs)], [OrderedDict(pairs)] *)
Definition dict_of_pairs {V} (pairs : list (string * V)) : dict V :=
  dict_update [] pairs.

(** The invariant of Python dictionaries: no key occurs twice, at any
    depth of the value. *)
Fixpoint wf_json (v : json) : Prop :=
  match v with
  | JArr l => (fix all (l : list json) : Prop :=
                 match l with [] => True | x :: l' => wf_json x ∧ all l' end) l
  | JObj kvs =>
      NoDup (kvs.*1) ∧
      (fix all (d : dict json) : Prop :=
         match d with [] => True | kv :: d' => wf_json kv.2 ∧ all d' end) kvs
  | _ => True
  end.

(** ** Exceptions *)

Inductive exn : Type :=
  | NotFound          (* raised by the registries for an unknown key *)
  | AttributeError    (* a method is looked up on a value that lacks it *)
  | KeyError          (* [del d[k]] for an absent key *)
  | TypeError.        (* a call with arguments the callee does not take *)

Inductive outcome (A : Type) : Type :=
  | Ok (a : A)
  | Raise (e : exn).
Arguments Ok {A} a.
Arguments Raise {A} e.

(** ** FormModel *)

Record FormModel : Type := mkFormModel {
  form_pk : Z;                       (* the primary key Django adds *)
  form_name : string;
  submit_url : string;
  success_url : string;
  actions : list string;
  form_template : string;
  success_template : string;
}.

(** [s.endswith('/')] *)
Fixpoint endswith_slash (s : string) : bool :=
  match s with
  | EmptyString => false
  | String c EmptyString => Ascii.eqb c "/"
  | String _ s' => endswith_slash s'
  end.

(** A string is true in a condition when it is not empty. *)
Definition truthy (s : string) : bool :=
  match s with EmptyString => false | _ => true end.

(** [FormModel.save], up to the call of the parent class, which writes the
    record it is given. *)
Definition FormModel_save (self : FormModel) : FormModel :=
  let submit_url' :=
    if negb (endswith_slash (submit_url self))
    then submit_url self ++ "/" else submit_url self in
  let success_url' :=
    if truthy (success_url self) then
      if negb (endswith_slash (success_url self))
      then success_url self ++ "/" else success_url self
    else submit_url' ++ "done/" in
  {| form_pk := form_pk self;
     form_name := form_name self;
     submit_url := submit_url';
     success_url := success_url';
     actions := actions self;
     form_template := form_template self;
     success_template := success_template self |}.

(** [self.submit_url = url], an assignment by a caller. *)
Definition with_submit_url (url : string) (f : FormModel) : FormModel :=
  {| form_pk := form_pk f;
     form_name := form_name f;
     submit_url := url;
     success_url := success_url f;
     actions := actions f;
     form_template := form_template f;
     success_template := success_template f |}.

(** The shape of the two URLs that the docstring of [FormModel.save]
    asks for. *)
Definition normalized (f : FormModel) : Prop :=
  endswith_slash (submit_url f) = true
  ∧ truthy (success_url f) = true
  ∧ endswith_slash (success_url f) = true.

(** ** Reference instances of the library functions

    These definitions compute what the Python and Django functions
    compute on text whose characters are code points below 256 and on
    integers; they instantiate the section variables of the models in the
    concrete examples. *)

Module Ref.

Definition dquote : ascii := "034".
Definition backslash : ascii := "092".

(** *** json.dumps (default separators, [ensure_ascii]) *)

Fixpoint print_uint (d : uint) (k : string) : string :=
  match d with
  | Nil => k
  | D0 d => String "0" (print_uint d k)
  | D1 d => String "1" (print_uint d k)
  | D2 d => String "2" (print_uint d k)
  | D3 d => String "3" (print_uint d k)
  | D4 d => String "4" (print_uint d k)
  | D5 d => String "5" (print_uint d k)
  | D6 d => String "6" (print_uint d k)
  | D7 d => String "7" (print_uint d k)
  | D8 d => String "8" (print_uint d k)
  | D9 d => String "9" (print_uint d k)
  end.

Definition print_int (z : Z) (k : string) : string :=
  match z with
  | Z0 => String "0" k
  | Zpos p => print_uint (Pos.to_uint p) k
  | Zneg p => String "-" (print_uint (Pos.to_uint p) k)
  end.

Definition hex_digit (n : N) : ascii :=
  (match N.to_nat n with
   | 0 => "0" | 1 => "1" | 2 => "2" | 3 => "3" | 4 => "4" | 5 => "5"
   | 6 => "6" | 7 => "7" | 8 => "8" | 9 => "9" | 10 => "a" | 11 => "b"
   | 12 => "c" | 13 => "d" | 14 => "e" | _ => "f"
   end)%nat%char.

(** One character of a string literal: printable ASCII stands for
    itself, the rest is escaped. *)
Definition print_char (c : ascii) (k : string) : string :=
  let n := N_of_ascii c in
  if Ascii.eqb c dquote then String backslash (String dquote k)
  else if Ascii.eqb c backslash then String backslash (String backslash k)
  else if (n =? 10)%N then String backslash (String "n" k)
  else if (n =? 13)%N then String backslash (String "r" k)
  else if (n =? 9)%N then String backslash (String "t" k)
  else if (n =? 12)%N then String backslash (String "f" k)
  else if (n =? 8)%N then String backslash (String "b" k)
  else if ((32 <=? n) && (n <=? 126))%N then String c k
  else String backslash (String "u" (String "0" (String "0"
         (String (hex_digit (n / 16)) (String (hex_digit (n mod 16)) k))))).

Fixpoint print_chars (s : string) (k : string) : string :=
  match s with
  | EmptyString => k
  | String c s' => print_char c (print_chars s' k)
  end.

Definition print_str (s : string) (k : string) : string :=
  String dquote (print_chars s (String dquote k)).

(** [print v k] is the text of [v] followed by [k]. *)
Fixpoint print (v : json) (k : string) : string :=
  match v with
  | JNull => "null" ++ k
  | JBool true => "true" ++ k
  | JBool false => "false" ++ k
  | JNum z => print_int z k
  | JStr s => print_str s k
  | JArr [] => "[]" ++ k
  | JArr (x :: l) =>
      String "["
        (print x
           ((fix tail (l : list json) : string :=
               match l with
               | [] => String "]" k
               | y :: l' => ", " ++ print y (tail l')
               end) l))
  | JObj [] => "{}" ++ k
  | JObj ((key, x) :: d) =>
      String "{"
        (print_str key
           (": " ++ print x
              ((fix tail (d : dict json) : string :=
                  match d with
                  | [] => String "}" k
                  | (key', y) :: d' =>
                      ", " ++ print_str key' (": " ++ print y (tail d'))
                  end) d)))
  end.

Definition json_dumps (v : json) : string := print v "".

(** The two inner loops of [print], by name. *)
Fixpoint print_elements (l : list json) (k : string) : string :=
  match l with
  | [] => String "]" k
  | y :: l' => ", " ++ print y (print_elements l' k)
  end.

Fixpoint print_members (d : dict json) (k : string) : string :=
  match d with
  | [] => String "}" k
  | (key, y) :: d' =>
      ", " ++ print_str key (": " ++ print y (print_members d' k))
  end.

(** The number of calls the parser spends on a value. *)
Fixpoint json_size (v : json) : nat :=
  match v with
  | JArr l =>
      S ((fix sum (l : list json) : nat :=
            match l with [] => O | x :: l' => S (json_size x + sum l') end) l)
  | JObj d =>
      S ((fix sum (d : dict json) : nat :=
            match d with
            | [] => O
            | kv :: d' => S (S (json_size kv.2 + sum d'))
            end) d)
  | _ => 1
  end%nat.

Fixpoint elements_size (l : list json) : nat :=
  match l with
  | [] => O
  | x :: l' => S (json_size x + elements_size l')
  end.

Fixpoint members_size (d : dict json) : nat :=
  match d with
  | [] => O
  | kv :: d' => S (S (json_size kv.2 + members_size d'))
  end.

(** *** json.loads *)

Definition is_ws (c : ascii) : bool :=
  let n := N_of_ascii c in
  ((n =? 32) || (n =? 9) || (n =? 10) || (n =? 13))%N.

Fixpoint skip_ws (s : string) : string :=
  match s with
  | String c r => if is_ws c then skip_ws r else s
  | EmptyString => s
  end.

Definition digit_of (c : ascii) : option (uint → uint) :=
  match c with
  | "0" => Some D0 | "1" => Some D1 | "2" => Some D2 | "3" => Some D3
  | "4" => Some D4 | "5" => Some D5 | "6" => Some D6 | "7" => Some D7
  | "8" => Some D8 | "9" => Some D9 | _ => None
  end%char.

(** The longest run of digits at the head of [s]. *)
Fixpoint read_uint (s : string) : uint * string :=
  match s with
  | String c r =>
      match digit_of c with
      | Some dc => let '(d, rest) := read_uint r in (dc d, rest)
      | None => (Nil, s)
      end
  | EmptyString => (Nil, s)
  end.

(** A numeral without sign: at least one digit, no leading zero. *)
Definition parse_nat (s : string) : option (N * string) :=
  let '(d, rest) := read_uint s in
  match d with
  | Nil => None
  | D0 Nil => Some (0%N, rest)
  | D0 _ => None
  | _ => Some (N.of_uint d, rest)
  end.

Definition hex_value (c : ascii) : option N :=
  let n := N_of_ascii c in
  if ((48 <=? n) && (n <=? 57))%N then Some (n - 48)%N
  else if ((97 <=? n) && (n <=? 102))%N then Some (n - 87)%N
  else if ((65 <=? n) && (n <=? 70))%N then Some (n - 55)%N
  else None.

Definition unescape (e : ascii) : option ascii :=
  if Ascii.eqb e dquote then Some dquote
  else if Ascii.eqb e backslash then Some backslash
  else if Ascii.eqb e "/" then Some "/"%char
  else if Ascii.eqb e "n" then Some "010"%char
  else if Ascii.eqb e "r" then Some "013"%char
  else if Ascii.eqb e "t" then Some "009"%char
  else if Ascii.eqb e "f" then Some "012"%char
  else if Ascii.eqb e "b" then Some "008"%char
  else None.

(** The characters of a string literal up to its closing quote. *)
Fixpoint parse_chars (s : string) : option (string * string) :=
  match s with
  | EmptyString => None
  | String c r =>
      if Ascii.eqb c dquote then Some (EmptyString, r)
      else if Ascii.eqb c backslash then
        match r with
        | String e r' =>
            if Ascii.eqb e "u" then
              match r' with
              | String h3 (String h2 (String h1 (String h0 r''))) =>
                  match hex_value h3, hex_value h2,
                        hex_value h1, hex_value h0 with
                  | Some 0%N, Some 0%N, Some a, Some b =>
                      match parse_chars r'' with
                      | Some (cs, rest) =>
                          Some (String (ascii_of_N (16 * a + b)) cs, rest)
                      | None => None
                      end
                  | _, _, _, _ => None
                  end
              | _ => None
              end
            else
              match unescape e with
              | Some x =>
                  match parse_chars r' with
                  | Some (cs, rest) => Some (String x cs, rest)
                  | None => None
                  end
              | None => None
              end
        | EmptyString => None
        end
      else if (N_of_ascii c <? 32)%N then None
      else
        match parse_chars r with
        | Some (cs, rest) => Some (String c cs, rest)
        | None => None
        end
  end.

(** What follows [lit] at the head of [s]. *)
Fixpoint expect (lit : string) (s : string) : option string :=
  match lit with
  | EmptyString => Some s
  | String c lit' =>
      match s with
      | String c' s' => if Ascii.eqb c c' then expect lit' s' else None
      | EmptyString => None
      end
  end.

(** Recursive descent; [n] bounds the number of nested calls. *)
Fixpoint parse_value (n : nat) (s : string) : option (json * string) :=
  match n with
  | O => None
  | S n' =>
      match s with
      | EmptyString => None
      | String c r =>
          if Ascii.eqb c "n" then
            rest ← expect "ull" r; Some (JNull, rest)
          else if Ascii.eqb c "t" then
            rest ← expect "rue" r; Some (JBool true, rest)
          else if Ascii.eqb c "f" then
            rest ← expect "alse" r; Some (JBool false, rest)
          else if Ascii.eqb c dquote then
            '(str, rest) ← parse_chars r; Some (JStr str, rest)
          else if Ascii.eqb c "[" then
            match skip_ws r with
            | EmptyString => None
            | String c1 r1 =>
                if Ascii.eqb c1 "]" then Some (JArr [], r1)
                else
                  '(v, r2) ← parse_value n' (String c1 r1);
                  '(vs, r3) ← parse_elements n' r2;
                  Some (JArr (v :: vs), r3)
            end
          else if Ascii.eqb c "{" then
            match skip_ws r with
            | EmptyString => None
            | String c1 r1 =>
                if Ascii.eqb c1 "}" then Some (JObj [], r1)
                else
                  '(kv, r2) ← parse_member n' (String c1 r1);
                  '(kvs, r3) ← parse_members n' r2;
                  Some (JObj (dict_of_pairs (kv :: kvs)), r3)
            end
          else if Ascii.eqb c "-" then
            '(m, rest) ← parse_nat r; Some (JNum (- Z.of_N m), rest)
          else
            '(m, rest) ← parse_nat s; Some (JNum (Z.of_N m), rest)
      end
  end
with parse_elements (n : nat) (s : string) : option (list json * string) :=
  match n with
  | O => None
  | S n' =>
      match skip_ws s with
      | String c r =>
          if Ascii.eqb c "]" then Some ([], r)
          else if Ascii.eqb c "," then
            '(v, r2) ← parse_value n' (skip_ws r);
            '(vs, r3) ← parse_elements n' r2;
            Some (v :: vs, r3)
          else None
      | EmptyString => None
      end
  end
with parse_member (n : nat) (s : string)
  : option ((string * json) * string) :=
  match n with
  | O => None
  | S n' =>
      match s with
      | String c r =>
          if Ascii.eqb c dquote then
            '(key, r1) ← parse_chars r;
            match skip_ws r1 with
            | EmptyString => None
            | String c2 r2 =>
                if Ascii.eqb c2 ":" then
                  '(v, r3) ← parse_value n' (skip_ws r2);
                  Some ((key, v), r3)
                else None
            end
          else None
      | EmptyString => None
      end
  end
with parse_members (n : nat) (s : string)
  : option (dict json * string) :=
  match n with
  | O => None
  | S n' =>
      match skip_ws s with
      | String c r =>
          if Ascii.eqb c "}" then Some ([], r)
          else if Ascii.eqb c "," then
            '(kv, r2) ← parse_member n' (skip_ws r);
            '(kvs, r3) ← parse_members n' r2;
            Some (kv :: kvs, r3)
          else None
      | EmptyString => None
      end
  end.

Definition json_loads (s : string) : option json :=
  '(v, rest) ← parse_value (2 * String.length s + 2) (skip_ws s);
  match skip_ws rest with
  | EmptyString => Some v
  | _ => None
  end.

(** The text after a numeral must not go on with a digit. *)
Definition no_digit (k : string) : Prop :=
  match k with
  | EmptyString => True
  | String c _ => digit_of c = None
  end.

(** The statement of the round trip for one value. *)
Definition parses_back (v : json) : Prop :=
  ∀ n k, wf_json v → (json_size v ≤ n)%nat → no_digit k →
         parse_value n (print v k) = Some (v, k).

(** *** django.utils.html.escape *)

Definition escape_char (c : ascii) : string :=
  if Ascii.eqb c "&" then "&amp;"
  else if Ascii.eqb c "<" then "&lt;"
  else if Ascii.eqb c ">" then "&gt;"
  else if Ascii.eqb c dquote then "&quot;"
  else if Ascii.eqb c "'" then "&#39;"
  else String c "".

Fixpoint escape (s : string) : string :=
  match s with
  | EmptyString => ""
  | String c s' => escape_char c ++ escape s'
  end.

(** *** django.utils.encoding.force_text: [str(v)] *)

Fixpoint contains (c : ascii) (s : string) : bool :=
  match s with
  | EmptyString => false
  | String c' s' => Ascii.eqb c c' || contains c s'
  end.

Definition repr_char (q : ascii) (c : ascii) : string :=
  let n := N_of_ascii c in
  if Ascii.eqb c backslash then String backslash (String backslash "")
  else if Ascii.eqb c q then String backslash (String q "")
  else if (n =? 10)%N then String backslash "n"
  else if (n =? 13)%N then String backslash "r"
  else if (n =? 9)%N then String backslash "t"
  else if ((n <? 32) || ((127 <=? n) && (n <=? 160)) || (n =? 173))%N then
    String backslash
      (String "x" (String (hex_digit (n / 16))
                     (String (hex_digit (n mod 16)) "")))
  else String c "".

Fixpoint repr_chars (q : ascii) (s : string) : string :=
  match s with
  | EmptyString => ""
  | String c s' => repr_char q c ++ repr_chars q s'
  end.

(** [repr] of a [str]: double quotes are chosen when the text holds a
    single quote and no double quote. *)
Definition repr_str (s : string) : string :=
  let q := if contains "'" s && negb (contains dquote s)
           then dquote else "'"%char in
  String q (repr_chars q s ++ String q "").

Fixpoint repr (v : json) : string :=
  match v with
  | JNull => "None"
  | JBool true => "True"
  | JBool false => "False"
  | JNum z => print_int z ""
  | JStr s => repr_str s
  | JArr [] => "[]"
  | JArr (x :: l) =>
      "[" ++ repr x ++
        (fix tail (l : list json) : string :=
           match l with
           | [] => "]"
           | y :: l' => ", " ++ repr y ++ tail l'
           end) l
  | JObj [] => "{}"
  | JObj ((key, x) :: d) =>
      "{" ++ repr_str key ++ ": " ++ repr x ++
        (fix tail (d : dict json) : string :=
           match d with
           | [] => "}"
           | (key', y) :: d' =>
               ", " ++ repr_str key' ++ ": " ++ repr y ++ tail d'
           end) d
  end.

Definition force_text (v : json) : string :=
  match v with
  | JStr s => s
  | _ => repr v
  end.

(** *** django.template.defaultfilters.slugify, on ASCII text *)

Definition is_space (c : ascii) : bool :=
  let n := N_of_ascii c in
  (((9 <=? n) && (n <=? 13)) || ((28 <=? n) && (n <=? 32)))%N.

Definition is_word (c : ascii) : bool :=
  let n := N_of_ascii c in
  (((48 <=? n) && (n <=? 57)) || ((65 <=? n) && (n <=? 90))
   || ((97 <=? n) && (n <=? 122)) || (n =? 95))%N.

Definition lower (c : ascii) : ascii :=
  let n := N_of_ascii c in
  if ((65 <=? n) && (n <=? 90))%N then ascii_of_N (n + 32) else c.

Fixpoint filter_chars (p : ascii → bool) (s : string) : string :=
  match s with
  | EmptyString => ""
  | String c s' =>
      if p c then String c (filter_chars p s') else filter_chars p s'
  end.

Fixpoint lstrip (s : string) : string :=
  match s with
  | String c s' => if is_space c then lstrip s' else s
  | EmptyString => s
  end.

(** The text without its trailing white space. *)
Fixpoint rstrip (s : string) : string :=
  match s with
  | EmptyString => ""
  | String c s' =>
      match rstrip s' with
      | EmptyString => if is_space c then "" else String c ""
      | t => String c t
      end
  end.

Fixpoint map_chars (f : ascii → ascii) (s : string) : string :=
  match s with
  | EmptyString => ""
  | String c s' => String (f c) (map_chars f s')
  end.

(** Each maximal run of hyphens and white space becomes one hyphen;
    [in_run] tells that the hyphen of the current run is written. *)
Fixpoint hyphenate (in_run : bool) (s : string) : string :=
  match s with
  | EmptyString => ""
  | String c s' =>
      if Ascii.eqb c "-" || is_space c then
        if in_run then hyphenate true s' else String "-" (hyphenate true s')
      else String c (hyphenate false s')
  end.

Definition slugify (value : string) : string :=
  let value := filter_chars (λ c, (N_of_ascii c <? 128)%N) value in
  let value :=
    filter_chars (λ c, is_word c || is_space c || Ascii.eqb c "-") value in
  let value := map_chars lower (rstrip (lstrip value)) in
  hyphenate false value.

End Ref.

(** ** The object store and the method monad *)

(** Decoded option values are Python objects: they are reached through
    references, and two names may hold the same reference. *)
Definition loc := nat.

Record FormFieldModel : Type := mkFormFieldModel {
  parent_form : Z;
  field_type : string;
  label : string;
  name : string;
  _options : option string;          (* nullable text column *)
  position : Z;
  _options_cached : option loc;      (* [None]: the attribute is not set *)
}.

(** The columns of a [FormFieldModel], as [Model.save] writes them. *)
Record FormFieldRow : Type := mkFormFieldRow {
  row_parent_form : Z;
  row_field_type : string;
  row_label : string;
  row_name : string;
  row_options : option string;
  row_position : Z;
}.

Definition row_of (f : FormFieldModel) : FormFieldRow :=
  {| row_parent_form := parent_form f;
     row_field_type := field_type f;
     row_label := label f;
     row_name := name f;
     row_options := _options f;
     row_position := position f |}.

(** What a method of [FormFieldModel] can read and change: the instance,
    the objects on the heap, and the rows written to the table so far. *)
Record state : Type := mkState {
  self : FormFieldModel;
  heap : list json;
  written : list FormFieldRow;
}.

(** A method returns a value or raises; the state it leaves behind is
    kept in both cases. *)
Definition M (A : Type) : Type := state → outcome A * state.

Definition ret {A} (a : A) : M A := λ st, (Ok a, st).

Definition bind {A B} (m : M A) (k : A → M B) : M B :=
  λ st, match m st with
        | (Ok a, st') => k a st'
        | (Raise e, st') => (Raise e, st')
        end.

Definition raise {A} (e : exn) : M A := λ st, (Raise e, st).

Definition lift {A} (o : outcome A) : M A := λ st, (o, st).

Declare Scope method_scope.
Delimit Scope method_scope with method.
Notation "x <- m ;; k" := (bind m (λ x, k))
  (at level 100, m at next level, right associativity) : method_scope.
Notation "m ;; k" := (bind m (λ _, k))
  (at level 100, right associativity) : method_scope.
Local Open Scope method_scope.

Definition get_self : M FormFieldModel := λ st, (Ok (self st), st).

Definition set_self (f : FormFieldModel) : M unit :=
  λ st, (Ok tt, {| self := f; heap := heap st; written := written st |}).

(** A new object on the heap. *)
Definition alloc (v : json) : M loc :=
  λ st, (Ok (length (heap st)),
         {| self := self st; heap := heap st ++ [v]; written := written st |}).

Definition read (l : loc) : M json := λ st, (Ok (heap st !!! l), st).

Definition write (l : loc) (v : json) : M unit :=
  λ st, (Ok tt, {| self := self st; heap := <[l := v]> (heap st);
                   written := written st |}).

(** Attribute assignments on [self]. *)
Definition with_name (n : string) (f : FormFieldModel) : FormFieldModel :=
  {| parent_form := parent_form f; field_type := field_type f;
     label := label f; name := n; _options := _options f;
     position := position f; _options_cached := _options_cached f |}.

Definition with_options (o : option string) (f : FormFieldModel)
  : FormFieldModel :=
  {| parent_form := parent_form f; field_type := field_type f;
     label := label f; name := name f; _options := o;
     position := position f; _options_cached := _options_cached f |}.

Definition with_cached (c : option loc) (f : FormFieldModel)
  : FormFieldModel :=
  {| parent_form := parent_form f; field_type := field_type f;
     label := label f; name := name f; _options := _options f;
     position := position f; _options_cached := c |}.

Definition modify_self (g : FormFieldModel → FormFieldModel) : M unit :=
  f <- get_self ;; set_self (g f).

(** [models.Model.save]: the columns of the instance are written.
    Constraint violations reported by the database are not modelled. *)
Definition Model_save : M unit :=
  λ st, (Ok tt, {| self := self st; heap := heap st;
                   written := written st ++ [row_of (self st)] |}).

(** [for x in xs: body(x)] *)
Fixpoint for_each {A} (xs : list A) (body : A → M unit) : M unit :=
  match xs with
  | [] => ret tt
  | x :: xs' => body x ;; for_each xs' body
  end.

(** The order [sorted] puts the items of a dictionary in: keys are
    distinct, so the comparison of two items is decided by their keys. *)
Definition key_le (a b : string * json) : Prop := String.leb a.1 b.1 = true.

Global Instance key_le_dec : RelDecision key_le.
Proof. intros a b. unfold key_le. apply _. Defined.

(** ** The fields of a form

    The table of [FormFieldModel] rows lists them in creation order; the
    primary key grows with it. *)
Record StoredField : Type := mkStoredField {
  pk : Z;
  columns : FormFieldRow;
}.

(** [Meta.ordering = ['parent_form', 'position']]: the order the database
    is asked for.  Rows that agree on both columns may come either way. *)
Definition meta_ordering (a b : StoredField) : Prop :=
  row_parent_form (columns a) < row_parent_form (columns b)
  ∨ (row_parent_form (columns a) = row_parent_form (columns b)
     ∧ row_position (columns a) ≤ row_position (columns b)).

Global Instance meta_ordering_dec : RelDecision meta_ordering.
Proof. intros a b. unfold meta_ordering. apply _. Defined.

(** The rows the related manager [self.fields] selects. *)
Definition fields_of (form : FormModel) (table : list StoredField)
  : list StoredField :=
  filter (λ r, row_parent_form (columns r) = form_pk form) table.

(** [rows] is an answer of the database to [self.fields.all()]: the
    selected rows, in an order that respects [Meta.ordering]. *)
Definition queryset_all (form : FormModel) (table rows : list StoredField)
  : Prop :=
  rows ≡ₚ fields_of form table ∧ StronglySorted meta_ordering rows.

(** [values_list('name', 'label')] *)
Definition values_list_name_label (rows : list StoredField)
  : list (string * string) :=
  map (λ r, (row_name (columns r), row_label (columns r))) rows.

(** [FormModel.get_fields_as_dict], on the rows the query returned. *)
Definition get_fields_as_dict (rows : list StoredField) : dict string :=
  dict_of_pairs (values_list_name_label rows).

(** Position first, creation order among equal positions. *)
Definition position_then_creation (a b : StoredField) : Prop :=
  row_position (columns a) < row_position (columns b)
  ∨ (row_position (columns a) = row_position (columns b) ∧ pk a ≤ pk b).

Global Instance position_then_creation_dec : RelDecision position_then_creation.
Proof. intros a b. unfold position_then_creation. apply _. Defined.

(** ** FormFieldModel and FormModelData *)

Section Models.

(** [json.loads] on text, [None] standing for [ValueError], and
    [json.dumps]. *)
Variable json_loads : string → option json.
Variable json_dumps : json → string.

(** [django.template.defaultfilters.slugify], [django.utils.html.escape]
    and [django.utils.encoding.force_text]. *)
Variable slugify : string → string.
Variable escape : string → string.
Variable force_text : json → string.

(** Runtime fields and runtime forms belong to the plugins. *)
Variable Field : Type.
Variable Form : Type.

(** Modelled from the spec: [dynamic_forms.formfields] is not part of the
    sources at hand.  A field type descriptor provides a constructor
    taking keyword options, a declared options schema (of which the code
    uses the keys) and the capability [contribute_to_form]; the registry
    maps a key to a descriptor and [get] fails with [NotFound] for an
    unregistered key. *)
Record FieldType : Type := mkFieldType {
  _meta : list string;
  construct : dict json → outcome Field;
  contribute_to_form : Field → Form → Form;
}.

Variable formfield_registry : gmap string FieldType.

Definition formfield_registry_get (key : string) : outcome FieldType :=
  match formfield_registry !! key with
  | Some cls => Ok cls
  | None => Raise NotFound
  end.

(** The [options] property. *)
Definition options : M loc :=
  f <- get_self ;;
  match _options_cached f with
  | Some l => ret l
  | None =>
      l <- alloc (JObj []) ;;
      modify_self (with_cached (Some l)) ;;
      match _options f with
      | Some s =>
          if truthy s then
            match json_loads s with
            | Some v =>
                l' <- alloc v ;;
                modify_self (with_cached (Some l')) ;;
                ret l'
            | None => ret l
            end
          else ret l
      | None => ret l
      end
  end.

(** The setter of [options]. *)
Definition set_options (opts : loc) : M unit :=
  modify_self (with_cached None) ;;
  v <- read opts ;;
  modify_self (with_options (Some (json_dumps v))).

(** [kwargs] is the object the property returned, not a copy of it. *)
Definition get_form_field_kwargs : M loc :=
  kwargs <- options ;;
  v <- read kwargs ;;
  match v with
  | JObj d =>
      f <- get_self ;;
      write kwargs
        (JObj (dict_update d [("name", JStr (name f));
                              ("label", JStr (label f))])) ;;
      ret kwargs
  | _ => raise AttributeError
  end.

(** The target form is an object of the caller: the form after
    [contribute_to_form] is returned next to the field. *)
Definition generate_form_field (form : Form) : M (Field * Form) :=
  f <- get_self ;;
  field_type_cls <- lift (formfield_registry_get (field_type f)) ;;
  kwargs <- get_form_field_kwargs ;;
  v <- read kwargs ;;
  match v with
  | JObj d =>
      field <- lift (construct field_type_cls d) ;;
      ret (field, contribute_to_form field_type_cls field form)
  | _ => raise TypeError
  end.

(** [del d[key]] on the object at [l]. *)
Definition del_item (l : loc) (key : string) : M unit :=
  v <- read l ;;
  match v with
  | JObj d =>
      if decide (key ∈ dict_keys d)
      then write l (JObj (dict_del key d))
      else raise KeyError
  | _ => raise TypeError
  end.

(** [set(options.keys()) - set(field_type_cls._meta.keys())] *)
Definition invalid_keys (d : dict json) (cls : FieldType) : gset string :=
  list_to_set (dict_keys d) ∖ list_to_set (_meta cls).

Definition FormFieldModel_save : M unit :=
  f <- get_self ;;
  (if truthy (name f) then ret tt
   else modify_self (with_name (slugify (label f)))) ;;
  given_options <- options ;;
  f <- get_self ;;
  field_type_cls <- lift (formfield_registry_get (field_type f)) ;;
  o <- options ;;
  v <- read o ;;
  match v with
  | JObj d =>
      let invalid : gset string := invalid_keys d field_type_cls in
      (if decide (invalid = ∅) then ret tt
       else
         for_each (elements invalid) (del_item given_options) ;;
         set_options given_options) ;;
      Model_save
  | _ => raise AttributeError
  end.

(** [FormModelData.pretty_value] on the stored [value]. *)
Definition render_item (kv : string * json) : string :=
  "<dt>" ++ escape (force_text (JStr kv.1)) ++ "</dt><dd>"
         ++ escape (force_text kv.2) ++ "</dd>".

Definition pretty_value (value : string) : outcome string :=
  match json_loads value with
  | None => Ok value
  | Some (JObj d) =>
      Ok (String.concat ""
            (["<dl>"] ++ map render_item (merge_sort key_le d) ++ ["</dl>"]))
  | Some _ => Raise AttributeError
  end.

(** What decoding a stored blob yields: the value [options] caches on
    an instance that has no cache yet. *)
Definition decode_blob (blob : option string) : json :=
  match blob with
  | Some s =>
      if truthy s then
        match json_loads s with
        | Some v => v
        | None => JObj []
        end
      else JObj []
  | None => JObj []
  end.

(** The cache, when there is one, holds the decoded blob. *)
Definition cache_in_sync (st : state) : Prop :=
  match _options_cached (self st) with
  | Some l => heap st !! l = Some (decode_blob (_options (self st)))
  | None => True
  end.

(** The instance after the first statement of [save]: an empty [name]
    is derived from the label. *)
Definition named (f : FormFieldModel) : FormFieldModel :=
  if truthy (name f) then f else with_name (slugify (label f)) f.

End Models.

Arguments mkFieldType {Field Form} _ _ _.
Arguments _meta {Field Form} _.
Arguments construct {Field Form} _ _.
Arguments contribute_to_form {Field Form} _ _ _.
Arguments formfield_registry_get {Field Form} _ _.
Arguments generate_form_field _ {Field Form} _ _ _.
Arguments invalid_keys {Field Form} _ _.
Arguments FormFieldModel_save _ _ _ {Field Form} _ _.

(** ** A sample deployment

    One field type, [text], whose schema declares [max_length] only.  Its
    runtime field is the dictionary of keyword arguments it was built
    from; a runtime form is the list of the fields that contributed to
    it. *)
Module Sample.

Definition text_field : FieldType (dict json) (list (dict json)) :=
  mkFieldType ["max_length"] (λ kwargs, Ok kwargs)
    (λ field form, (form ++ [field])%list).

Definition registry : gmap string (FieldType (dict json) (list (dict json))) :=
  {[ "text" := text_field ]}.

(** A field definition as it comes from the store: no cache. *)
Definition field (type_key name_ : string) (blob : option string)
  : FormFieldModel :=
  mkFormFieldModel 1 type_key "Full Name" name_ blob 0 None.

Definition fresh (f : FormFieldModel) : state := mkState f [] [].

Definition max_length_50 : dict json := [("max_length", JNum 50)].

Definition with_bogus : dict json :=
  [("max_length", JNum 50); ("bogus", JNum 1)].

(** The methods, with the reference instances of the libraries. *)
Definition options : M loc := options Ref.json_loads.

Definition save : M unit :=
  FormFieldModel_save Ref.json_loads Ref.json_dumps Ref.slugify registry.

Definition generate (form : list (dict json))
  : M (dict json * list (dict json)) :=
  generate_form_field Ref.json_loads registry form.

Definition pretty (value : string) : outcome string :=
  pretty_value Ref.json_loads Ref.escape Ref.force_text value.

(** [self.options], read down to the value of the object. *)
Definition read_options : M json := (l <- options ;; read l)%method.

(** The instance with the options [{"max_length": 50}], named. *)
Definition plain_state : state :=
  fresh (field "text" "full-name"
           (Some (Ref.json_dumps (JObj max_length_50)))).

(** An instance without name whose options hold an undeclared key. *)
Definition bogus_state : state :=
  fresh (field "text" "" (Some (Ref.json_dumps (JObj with_bogus)))).

(** An instance whose blob does not decode. *)
Definition broken_state : state := fresh (field "text" "x" (Some "{not json")).

(** An instance of a field type that is not registered. *)
Definition unknown_state : state := fresh (field "captcha" "x" None).

(** A dictionary on the heap, ready to be assigned to [options]. *)
Definition assign_state : state :=
  mkState (field "text" "x" (Some "{not json")) [JObj with_bogus] [].

(** An instance whose blob decodes to a list. *)
Definition list_state : state := fresh (field "text" "x" (Some "[1]")).

(** An instance whose blob is the JSON text [null]. *)
Definition null_state : state := fresh (field "text" "x" (Some "null")).

(** [del self.options['bogus']] on the instance with the undeclared key:
    the cached dictionary loses the key, the blob keeps it. *)
Definition pruned_state : state :=
  ((l <- options ;; del_item l "bogus")%method bogus_state).2.

(** The instance with the undeclared key after [generate_form_field],
    and the dictionary its cache then holds. *)
Definition generated_state : state := (generate [] bogus_state).2.

Definition generated_options : dict json :=
  [("max_length", JNum 50); ("bogus", JNum 1); ("name", JStr "");
   ("label", JStr "Full Name")].

(** An instance whose cached dictionary was changed in place after it was
    decoded: the blob says 50, the dictionary says 60. *)
Definition mutated_state : state :=
  mkState
    (mkFormFieldModel 1 "text" "Full Name" "x"
       (Some (Ref.json_dumps (JObj max_length_50))) 0 (Some 0%nat))
    [JObj [("max_length", JNum 60)]] [].

(** Two stored submissions with the same items in different order. *)
Definition items_ba : dict json := [("b", JStr "2"); ("a", JStr "1")].
Definition items_ab : dict json := [("a", JStr "1"); ("b", JStr "2")].
Definition value_ba : string := Ref.json_dumps (JObj items_ba).
Definition value_ab : string := Ref.json_dumps (JObj items_ab).

(** Two fields of form 1 at the same position, and a query answer that
    lists the younger one first. *)
Definition form1 : FormModel :=
  mkFormModel 1 "contact" "/contact/" "" [] "form.html" "done.html".

Definition row_a : StoredField :=
  mkStoredField 1 (mkFormFieldRow 1 "text" "First" "first" None 0).

Definition row_b : StoredField :=
  mkStoredField 2 (mkFormFieldRow 1 "text" "Second" "second" None 0).

Definition row_c : StoredField :=
  mkStoredField 3 (mkFormFieldRow 2 "text" "Other" "other" None 0).

Definition table : list StoredField := [row_a; row_b; row_c].

End Sample.

(** ** Properties *)

Section Properties.

Context (json_loads : string → option json) (json_dumps : json → string).
Context (slugify escape : string → string) (force_text : json → string).
Context {Field Form : Type}.
Context (formfield_registry : gmap string (FieldType Field Form)).

Local Abbreviation options := (options json_loads).
Local Abbreviation set_options := (set_options json_dumps).
Local Abbreviation get_form_field_kwargs :=
  (get_form_field_kwargs json_loads).
Local Abbreviation generate_form_field :=
  (generate_form_field json_loads formfield_registry).
Local Abbreviation FormFieldModel_save :=
  (FormFieldModel_save json_loads json_dumps slugify formfield_registry).
Local Abbreviation render_item := (render_item escape force_text).
Local Abbreviation pretty_value :=
  (pretty_value json_loads escape force_text).
Local Abbreviation decode_blob := (decode_blob json_loads).
Local Abbreviation cache_in_sync := (cache_in_sync json_loads).
Local Abbreviation named := (named slugify).
Local Abbreviation FieldType := (FieldType Field Form).

Set Default Proof Using "Type".

(** *** Dictionaries *)

Lemma dict_set_fresh {V} (k : string) (v : V) (d : dict V) :
  k ∉ dict_keys d → dict_set k v d = (d ++ [(k, v)])%list.
Proof.
  unfold dict_keys. induction d as [|[k' v'] d IH]; simpl; intros Hk.
  - reflexivity.
  - apply not_elem_of_cons in Hk as [Hne Hk].
    destruct (String.eqb_spec k k') as [->|_]; [done|].
    by rewrite IH.
Qed.

Lemma dict_update_nodup {V} (d pairs : dict V) :
  NoDup ((d ++ pairs)%list.*1) → dict_update d pairs = (d ++ pairs)%list.
Proof.
  unfold dict_update. revert d.
  induction pairs as [|[k v] pairs IH]; simpl; intros d Hnd.
  - by rewrite app_nil_r.
  - assert (Hd : (d ++ (k, v) :: pairs = (d ++ [(k, v)]) ++ pairs)%list)
      by (by rewrite <- app_assoc).
    rewrite Hd in Hnd. rewrite dict_set_fresh.
    + rewrite IH by done. by rewrite <- app_assoc.
    + rewrite !fmap_app in Hnd. apply NoDup_app in Hnd as [Hnd _].
      apply NoDup_app in Hnd as (_ & Hnd & _).
      unfold dict_keys. intros Hin. apply (Hnd _ Hin). simpl. left.
Qed.

Lemma dict_of_pairs_nodup {V} (pairs : dict V) :
  NoDup (pairs.*1) → dict_of_pairs pairs = pairs.
Proof. intros Hnd. unfold dict_of_pairs. by rewrite dict_update_nodup. Qed.

Lemma filter_iff_in {A} (P Q : A → Prop) `{!∀ x, Decision (P x)}
    `{!∀ x, Decision (Q x)} (l : list A) :
  (∀ x, x ∈ l → P x ↔ Q x) → filter P l = filter Q l.
Proof.
  induction l as [|x l IH]; intros HPQ; [done|].
  rewrite !filter_cons, IH by (intros; apply HPQ; by right).
  assert (HPQx : P x ↔ Q x) by (apply HPQ; left).
  destruct (decide (P x)), (decide (Q x)); tauto.
Qed.

Lemma filter_all {A} (P : A → Prop) `{!∀ x, Decision (P x)} (l : list A) :
  (∀ x, x ∈ l → P x) → filter P l = l.
Proof.
  induction l as [|x l IH]; intros HP; [done|].
  rewrite filter_cons, IH by (intros; apply HP; by right).
  rewrite decide_True; [done|apply HP; left].
Qed.

Lemma wf_json_arr (l : list json) : wf_json (JArr l) ↔ Forall wf_json l.
Proof.
  simpl. induction l as [|x l IH]; [by split; [constructor|]|].
  rewrite Forall_cons, IH. reflexivity.
Qed.

Lemma wf_json_obj (d : dict json) :
  wf_json (JObj d) ↔ NoDup (d.*1) ∧ Forall (λ kv, wf_json kv.2) d.
Proof.
  simpl. apply and_iff_compat_l.
  induction d as [|x d IH]; [by split; [constructor|]|].
  rewrite Forall_cons, IH. reflexivity.
Qed.

Lemma elem_of_dict_del_keys {V} (k k' : string) (d : dict V) :
  k' ∈ dict_keys (dict_del k d) ↔ k' ∈ dict_keys d ∧ k' ≠ k.
Proof.
  unfold dict_keys, dict_del. rewrite !list_elem_of_fmap. split.
  - intros ([k1 v1] & -> & Hin). apply list_elem_of_filter in Hin as [Hne Hin].
    split; [|done]. by exists (k1, v1).
  - intros [([k1 v1] & -> & Hin) Hne]. exists (k1, v1). split; [done|].
    by apply list_elem_of_filter.
Qed.

(** *** FormModel *)

Lemma endswith_slash_app (s t : string) :
  t ≠ "" → endswith_slash (s ++ t) = endswith_slash t.
Proof.
  intros Ht. induction s as [|c s IH]; [done|].
  change (String c s ++ t) with (String c (s ++ t)).
  destruct (s ++ t) eqn:E.
  - destruct s; simpl in E; [by subst|discriminate].
  - rewrite <- IH. reflexivity.
Qed.

Lemma truthy_app_r (s t : string) : truthy t = true → truthy (s ++ t) = true.
Proof. destruct s; simpl; [done|done]. Qed.

Lemma negb_if {A} (b : bool) (x y : A) :
  (if negb b then x else y) = (if b then y else x).
Proof. by destruct b. Qed.

(** C5: persisting a form appends exactly one slash to a [submit_url]
    that lacks the trailing slash and leaves a [submit_url] that has it
    unchanged; the persisted value ends with a slash, and normalizing a
    normalized form changes nothing. *)
Theorem FormModel_save_submit_url (self : FormModel) :
  submit_url (FormModel_save self)
    = (if endswith_slash (submit_url self)
       then submit_url self else submit_url self ++ "/")
  ∧ endswith_slash (submit_url (FormModel_save self)) = true
  ∧ FormModel_save (FormModel_save self) = FormModel_save self.
Proof.
  destruct self as [p n su sc a ft st].
  unfold FormModel_save; simpl. rewrite !negb_if.
  assert (Hsub : endswith_slash
            (if endswith_slash su then su else su ++ "/") = true).
  { destruct (endswith_slash su) eqn:E; [done|].
    by rewrite endswith_slash_app. }
  set (su' := if endswith_slash su then su else su ++ "/") in Hsub |- *.
  assert (Hsuc : ∀ x, endswith_slash
            (if truthy sc then if endswith_slash sc then sc else sc ++ "/"
             else x ++ "done/") = true
          ∧ truthy
            (if truthy sc then if endswith_slash sc then sc else sc ++ "/"
             else x ++ "done/") = true).
  { intros x. destruct (truthy sc) eqn:Et.
    - destruct (endswith_slash sc) eqn:E; [done|].
      split; [by rewrite endswith_slash_app|by apply truthy_app_r].
    - split; [by rewrite endswith_slash_app|by apply truthy_app_r]. }
  split; [done|]. split; [done|].
  rewrite Hsub. destruct (Hsuc su') as [-> ->]. reflexivity.
Qed.

(** C6: on every persist of a form an empty [success_url] becomes the
    persisted [submit_url] followed by [done/], and a [success_url] that
    is not empty gets one slash appended when it lacks the trailing
    slash; in both cases the persisted [success_url] ends with a slash. *)
Theorem FormModel_save_success_url (self : FormModel) :
  success_url (FormModel_save self)
    = (if truthy (success_url self)
       then if endswith_slash (success_url self)
            then success_url self else success_url self ++ "/"
       else submit_url (FormModel_save self) ++ "done/")
  ∧ endswith_slash (success_url (FormModel_save self)) = true.
Proof.
  destruct self as [p n su sc a ft st].
  unfold FormModel_save; simpl. rewrite !negb_if. split; [done|].
  destruct (truthy sc).
  - destruct (endswith_slash sc) eqn:E; [done|].
    by rewrite endswith_slash_app.
  - by rewrite endswith_slash_app.
Qed.

(** The example of the specification: an empty [success_url] next to
    the [submit_url] [/contact/]. *)
Example FormModel_save_contact (p : Z) (n : string) (a : list string)
    (ft st : string) :
  success_url (FormModel_save (mkFormModel p n "/contact/" "" a ft st))
  = "/contact/done/"
  ∧ submit_url (FormModel_save (mkFormModel p n "/contact" "" a ft st))
    = "/contact/"
  ∧ success_url (FormModel_save (mkFormModel p n "/contact" "/ok" a ft st))
    = "/ok/".
Proof. repeat split. Qed.

(** *** The options property *)

Lemma with_cached_same (f : FormFieldModel) :
  with_cached (_options_cached f) f = f.
Proof. by destruct f. Qed.

Lemma state_eta (st : state) :
  mkState (self st) (heap st) (written st) = st.
Proof. by destruct st. Qed.

(** The getter never raises; it leaves the columns and the table alone,
    extends the heap at most, and returns the cached object or a new
    object that holds the decoded blob. *)
Lemma options_run (st : state) :
  ∃ l extra,
    options st
    = (Ok l, mkState (with_cached (Some l) (self st))
               (heap st ++ extra) (written st))
    ∧ match _options_cached (self st) with
      | Some l0 => l = l0 ∧ extra = []
      | None =>
          (heap st ++ extra)%list !! l
          = Some (decode_blob (_options (self st)))
      end.
Proof.
  destruct st as [f h w]. unfold options, bind, get_self; simpl.
  destruct (_options_cached f) as [l0|] eqn:Hc.
  - exists l0, []. rewrite app_nil_r, <- Hc, with_cached_same. done.
  - unfold alloc, modify_self, bind, get_self, set_self, ret; simpl.
    assert (Hfst : (h ++ [JObj []])%list !! length h = Some (JObj []))
      by (by rewrite lookup_app_r, Nat.sub_diag by lia).
    unfold decode_blob.
    destruct (_options f) as [s|]; [destruct (truthy s)|];
      [destruct (json_loads s) as [v|]|..].
    + exists (length (h ++ [JObj []])), [JObj []; v]. simpl. split.
      * by rewrite <- app_assoc.
      * rewrite length_app. simpl.
        rewrite lookup_app_r by lia.
        by replace (length h + 1 - length h)%nat with 1%nat by lia.
    + by exists (length h), [JObj []].
    + by exists (length h), [JObj []].
    + by exists (length h), [JObj []].
Qed.

Lemma options_cached (st : state) (l : loc) :
  _options_cached (self st) = Some l → options st = (Ok l, st).
Proof.
  intros Hc. destruct st as [f h w]. simpl in Hc.
  unfold options, bind, get_self; simpl. by rewrite Hc.
Qed.

Lemma lookup_total_JObj (h : list json) (l : loc) (d : dict json) :
  h !!! l = JObj d → h !! l = Some (JObj d).
Proof.
  intros H. destruct (decide (l < length h)%nat) as [Hlt|Hge].
  - rewrite <- H. by apply list_lookup_lookup_total_lt.
  - rewrite list_lookup_total_alt, lookup_ge_None_2 in H by lia.
    discriminate H.
Qed.

Lemma set_options_run (st : state) (l : loc) :
  set_options l st
  = (Ok tt, mkState (with_options (Some (json_dumps (heap st !!! l)))
                       (with_cached None (self st)))
              (heap st) (written st)).
Proof. by destruct st. Qed.

(** The loop [for key in invalid: del given_options[key]]. *)
Lemma for_each_del_item (l : loc) (ks : list string) :
  ∀ (d : dict json) (st : state),
    heap st !! l = Some (JObj d) →
    NoDup ks →
    (∀ k, k ∈ ks → k ∈ dict_keys d) →
    for_each ks (del_item l) st
    = (Ok tt, mkState (self st)
                (<[l := JObj (filter (λ kv, kv.1 ∉ ks) d)]> (heap st))
                (written st)).
Proof.
  induction ks as [|k ks IH]; intros d st Hl Hnd Hin.
  - simpl. unfold ret. f_equal.
    rewrite filter_all by (intros; apply not_elem_of_nil).
    rewrite list_insert_id by done.
    apply eq_sym, state_eta.
  - apply NoDup_cons in Hnd as [Hk Hnd].
    simpl. unfold bind at 1. unfold del_item at 1, bind, read, write.
    rewrite (list_lookup_total_correct _ _ _ Hl).
    rewrite decide_True by (apply Hin; left). simpl.
    rewrite (IH (dict_del k d)); simpl.
    + rewrite list_insert_insert_eq. do 4 f_equal.
      unfold dict_del. rewrite list_filter_filter.
      apply list_filter_iff. intros [k' v']; simpl.
      rewrite not_elem_of_cons. split; intros [? ?]; by split.
    + apply list_lookup_insert_eq. by eapply lookup_lt_Some.
    + done.
    + intros k' Hk'. apply elem_of_dict_del_keys. split.
      * apply Hin. by right.
      * intros ->. done.
Qed.

(** *** FormFieldModel.save, step by step *)

Lemma filter_invalid (d : dict json) (cls : FieldType) :
  filter (λ kv, kv.1 ∉ elements (invalid_keys d cls)) d
  = filter (λ kv, kv.1 ∈ _meta cls) d.
Proof.
  apply filter_iff_in. intros [k v] Hin; simpl.
  rewrite elem_of_elements. unfold invalid_keys.
  rewrite elem_of_difference, !elem_of_list_to_set.
  assert (Hk : k ∈ dict_keys d)
    by (unfold dict_keys; apply list_elem_of_fmap; by exists (k, v)).
  split.
  - intros Hn. destruct (decide (k ∈ _meta cls)) as [|Hm]; [done|].
    exfalso. apply Hn. by split.
  - by intros Hm [_ Hn].
Qed.

Lemma FormFieldModel_save_run (st : state) :
  ∃ l extra,
    let f1 := named (self st) in
    let h1 := (heap st ++ extra)%list in
    let st1 := mkState (with_cached (Some l) f1) h1 (written st) in
    options (mkState f1 (heap st) (written st)) = (Ok l, st1)
    ∧ FormFieldModel_save st =
      match formfield_registry !! field_type (self st) with
      | None => (Raise NotFound, st1)
      | Some cls =>
          match h1 !!! l with
          | JObj d =>
              if decide (invalid_keys d cls = ∅) then
                (Ok tt, mkState (with_cached (Some l) f1) h1
                          (written st ++ [row_of f1]))
              else
                let d' := filter (λ kv, kv.1 ∈ _meta cls) d in
                let f3 := with_options (Some (json_dumps (JObj d')))
                            (with_cached None f1) in
                (Ok tt, mkState f3 (<[l := JObj d']> h1)
                          (written st ++ [row_of f3]))
          | _ => (Raise AttributeError, st1)
          end
      end.
Proof.
  destruct st as [f h w].
  destruct (options_run (mkState (named f) h w)) as (l & extra & Hopt & _).
  exists l, extra. simpl in Hopt |- *. split; [done|].
  assert (Hft : field_type (named f) = field_type f)
    by (unfold named; by destruct (truthy (name f))).
  unfold FormFieldModel_save.
  unfold bind at 1; simpl. unfold bind at 1.
  assert (Hname : (if truthy (name f) then ret ()
                   else modify_self (with_name (slugify (label f))))
                    (mkState f h w) = (Ok tt, mkState (named f) h w)).
  { unfold named. by destruct (truthy (name f)). }
  rewrite Hname. unfold bind at 1. rewrite Hopt.
  unfold bind at 1; simpl. unfold bind at 1, lift, formfield_registry_get.
  rewrite Hft.
  destruct (formfield_registry !! field_type f) as [cls|]; [|done].
  unfold bind at 1. rewrite (options_cached _ l) by done.
  unfold bind at 1, read; simpl.
  destruct ((h ++ extra)%list !!! l) as [| | | | |d] eqn:Hv; try done.
  unfold bind at 1.
  destruct (decide (invalid_keys d cls = ∅)) as [He|Hne].
  - unfold ret, Model_save; simpl. reflexivity.
  - unfold bind at 1.
    rewrite (for_each_del_item l _ d); simpl.
    + unfold Model_save; simpl.
      rewrite list_lookup_total_insert_eq
        by (apply lookup_total_JObj in Hv; by eapply lookup_lt_Some).
      by rewrite filter_invalid.
    + by apply lookup_total_JObj.
    + apply NoDup_elements.
    + intros k Hk. apply elem_of_elements in Hk. unfold invalid_keys in Hk.
      apply elem_of_difference in Hk as [Hk _].
      by apply elem_of_list_to_set in Hk.
Qed.

Lemma named_columns (f : FormFieldModel) :
  field_type (named f) = field_type f
  ∧ label (named f) = label f
  ∧ _options (named f) = _options f
  ∧ _options_cached (named f) = _options_cached f
  ∧ name (named f)
    = (if truthy (name f) then name f else slugify (label f)).
Proof. unfold named. by destruct (truthy (name f)). Qed.

(** C7: a field definition persisted with an empty [name] is written
    with the slug of its label as name; a name that is not empty is
    written as it is. *)
Theorem FormFieldModel_save_name (st st' : state) :
  FormFieldModel_save st = (Ok tt, st') →
  name (self st')
    = (if truthy (name (self st)) then name (self st)
       else slugify (label (self st)))
  ∧ ∃ row, written st' = (written st ++ [row])%list
           ∧ row_name row = name (self st').
Proof.
  destruct (FormFieldModel_save_run st) as (l & extra & _ & Hrun).
  simpl in Hrun. rewrite Hrun. clear Hrun.
  destruct (named_columns (self st)) as (_ & _ & _ & _ & Hname).
  destruct (formfield_registry !! field_type (self st)) as [cls|];
    [|discriminate].
  destruct ((heap st ++ extra)%list !!! l) as [| | | | |d];
    try discriminate.
  destruct (decide (invalid_keys d cls = ∅)); intros [= <-]; simpl;
    (split; [exact Hname|eexists; split; [reflexivity|done]]).
Qed.

(** C9: with a [field_type] that the registry does not know,
    [generate_form_field] raises [NotFound] before it touches anything,
    and [save] raises [NotFound] without writing a row; in both cases
    the caller gets the exception. *)
Theorem unregistered_field_type_raises (st : state) (form : Form) :
  formfield_registry !! field_type (self st) = None →
  generate_form_field form st = (Raise NotFound, st)
  ∧ ∃ st', FormFieldModel_save st = (Raise NotFound, st')
           ∧ written st' = written st.
Proof.
  intros Hreg. split.
  - destruct st as [f h w]. simpl in Hreg.
    unfold generate_form_field, bind, get_self, lift,
      formfield_registry_get; simpl.
    by rewrite Hreg.
  - destruct (FormFieldModel_save_run st) as (l & extra & _ & Hrun).
    simpl in Hrun. rewrite Hreg in Hrun. eauto.
Qed.

(** Reading [options] on an instance that comes from the store never
    raises.  The object it returns holds the empty dictionary when the
    blob is null, empty or not decodable, and the decoded value, of
    whatever JSON type, otherwise; the columns of the instance stay as
    they are. *)
Theorem options_getter_fail_soft (st : state) :
  _options_cached (self st) = None →
  ∃ l st',
    options st = (Ok l, st')
    ∧ heap st' !! l
      = Some (match _options (self st) with
              | None => JObj []
              | Some s =>
                  if truthy s then
                    match json_loads s with
                    | Some v => v
                    | None => JObj []
                    end
                  else JObj []
              end)
    ∧ _options_cached (self st') = Some l
    ∧ row_of (self st') = row_of (self st).
Proof.
  intros Hc. destruct (options_run st) as (l & extra & Hopt & Hv).
  rewrite Hc in Hv. eexists _, _. split; [exact Hopt|]. simpl.
  split; [exact Hv|]. split; [done|]. by destruct (self st).
Qed.

(** [save] serializes the options only when it removed a key; otherwise
    the blob of the instance is written as it is. *)
Lemma FormFieldModel_save_blob (st st' : state) :
  FormFieldModel_save st = (Ok tt, st') →
  ∃ cls l extra d,
    formfield_registry !! field_type (self st) = Some cls
    ∧ (heap st ++ extra)%list !! l = Some (JObj d)
    ∧ _options (self st')
      = if decide (invalid_keys d cls = ∅) then _options (self st)
        else Some (json_dumps (JObj (filter (λ kv, kv.1 ∈ _meta cls) d))).
Proof.
  destruct (FormFieldModel_save_run st) as (l & extra & _ & Hrun).
  simpl in Hrun. rewrite Hrun. clear Hrun.
  destruct (named_columns (self st)) as (_ & _ & Hblob & _ & _).
  destruct (formfield_registry !! field_type (self st)) as [cls|];
    [|discriminate].
  destruct ((heap st ++ extra)%list !!! l) as [| | | | |d] eqn:Hv;
    try discriminate.
  apply lookup_total_JObj in Hv.
  intros Hst'. exists cls, l, extra, d. split; [done|]. split; [done|].
  destruct (decide (invalid_keys d cls = ∅)); injection Hst' as <-; done.
Qed.

(** The representation invariant [cache_in_sync] holds on an instance
    without cache and is kept by the getter, the setter and [save]. *)
Lemma options_in_sync (st st' : state) (l : loc) :
  cache_in_sync st → options st = (Ok l, st') → cache_in_sync st'.
Proof.
  intros Hsync. destruct (options_run st) as (l2 & extra & -> & Hv).
  intros [= <- <-]. unfold cache_in_sync in Hsync |- *. simpl.
  destruct (self st) as [pf ft lb nm blob pos [l0|]]; simpl in Hsync, Hv |- *.
  - destruct Hv as [-> ->]. by rewrite app_nil_r.
  - exact Hv.
Qed.

Lemma set_options_in_sync (st : state) (l : loc) :
  cache_in_sync (set_options l st).2.
Proof. by rewrite set_options_run. Qed.

Lemma FormFieldModel_save_in_sync (st st' : state) :
  cache_in_sync st → FormFieldModel_save st = (Ok tt, st') →
  cache_in_sync st'.
Proof.
  intros Hsync.
  destruct (FormFieldModel_save_run st) as (l & extra & Hopt & Hrun).
  simpl in Hopt, Hrun. rewrite Hrun. clear Hrun.
  assert (Hnamed : cache_in_sync
                     (mkState (named (self st)) (heap st) (written st))).
  { destruct (named_columns (self st)) as (_ & _ & Hblob & Hcache & _).
    unfold cache_in_sync in Hsync |- *. simpl. by rewrite Hcache, Hblob. }
  pose proof (options_in_sync _ _ _ Hnamed Hopt) as Hsync1.
  destruct (formfield_registry !! field_type (self st)) as [cls|];
    [|discriminate].
  destruct ((heap st ++ extra)%list !!! l) as [| | | | |d];
    try discriminate.
  destruct (decide (invalid_keys d cls = ∅)); intros [= <-]; [|exact I].
  exact Hsync1.
Qed.

(** *** The contract of the json module *)

Hypothesis json_roundtrip :
  ∀ v, wf_json v → json_loads (json_dumps v) = Some v.
Hypothesis json_loads_wf : ∀ s v, json_loads s = Some v → wf_json v.
Hypothesis json_dumps_truthy : ∀ v, truthy (json_dumps v) = true.

Lemma decode_dumps (v : json) :
  wf_json v → decode_blob (Some (json_dumps v)) = v.
Proof using Type json_roundtrip json_dumps_truthy.
  intros Hwf. unfold decode_blob.
  by rewrite json_dumps_truthy, json_roundtrip.
Qed.

Lemma decode_blob_wf (blob : option string) : wf_json (decode_blob blob).
Proof using Type json_loads_wf.
  assert (wf_json (JObj [])) by (apply wf_json_obj; split; constructor).
  unfold decode_blob. destruct blob as [s|]; [|done].
  destruct (truthy s); [|done].
  destruct (json_loads s) as [v|] eqn:E; [by eapply json_loads_wf|done].
Qed.

Lemma wf_json_filter (P : string * json → Prop) `{!∀ x, Decision (P x)}
    (d : dict json) :
  wf_json (JObj d) → wf_json (JObj (filter P d)).
Proof.
  rewrite !wf_json_obj. intros [Hnd Hall]. split.
  - clear Hall. induction d as [|kv d IH]; [constructor|].
    rewrite fmap_cons in Hnd. apply NoDup_cons in Hnd as [Hkv Hnd].
    rewrite filter_cons. destruct (decide (P kv)); [|by apply IH].
    rewrite fmap_cons. apply NoDup_cons. split; [|by apply IH].
    intros Hin. apply Hkv. apply list_elem_of_fmap in Hin as (x & -> & Hx).
    apply list_elem_of_filter in Hx as [_ Hx].
    apply list_elem_of_fmap. by exists x.
  - apply Forall_forall. intros x Hx.
    apply list_elem_of_filter in Hx as [_ Hx].
    by eapply Forall_forall in Hall.
Qed.

(** C10: assigning a dictionary of JSON values through the setter and
    reading the property afterwards yields an object that holds an equal
    dictionary. *)
Theorem options_set_get (st : state) (l : loc) (m : dict json) :
  heap st !! l = Some (JObj m) →
  wf_json (JObj m) →
  ∃ st1 l' st2,
    set_options l st = (Ok tt, st1)
    ∧ options st1 = (Ok l', st2)
    ∧ heap st2 !! l' = Some (JObj m).
Proof using Type json_roundtrip json_dumps_truthy.
  intros Hl Hwf.
  rewrite set_options_run, (list_lookup_total_correct _ _ _ Hl).
  set (st1 := mkState _ _ _).
  destruct (options_run st1) as (l' & extra & Hopt & Hv).
  unfold st1 in Hv.
  cbn [self _options _options_cached with_options with_cached] in Hv.
  rewrite decode_dumps in Hv by done.
  eexists st1, l', _. split; [done|]. split; [exact Hopt|]. exact Hv.
Qed.

(** [save] on an instance in sync: the options stored in the row are the
    decoded blob restricted to the keys that the schema of the field type
    declares.  The instance is one whose cache, if it has one, was filled
    by the getter from the blob it still holds, as after loading, after
    reading [options] and after assigning [options]. *)
Theorem save_sanitizes_options (st st' : state) :
  cache_in_sync st →
  FormFieldModel_save st = (Ok tt, st') →
  ∃ cls d row,
    formfield_registry !! field_type (self st) = Some cls
    ∧ decode_blob (_options (self st)) = JObj d
    ∧ written st' = (written st ++ [row])%list
    ∧ decode_blob (row_options row)
      = JObj (filter (λ kv, kv.1 ∈ _meta cls) d).
Proof using Type json_roundtrip json_loads_wf json_dumps_truthy.
  intros Hsync.
  destruct (FormFieldModel_save_run st) as (l & extra & Hopt & Hrun).
  simpl in Hopt, Hrun. rewrite Hrun. clear Hrun.
  destruct (named_columns (self st)) as (_ & _ & Hblob & Hcache & _).
  assert (Hv : (heap st ++ extra)%list !! l
               = Some (decode_blob (_options (self st)))).
  { destruct (options_run (mkState (named (self st)) (heap st) (written st)))
      as (l2 & extra2 & Hopt2 & Hv2).
    rewrite Hopt in Hopt2. simpl in Hopt2.
    assert (l2 = l) as -> by congruence.
    injection Hopt2 as Hh. apply app_inv_head in Hh. subst extra2.
    simpl in Hv2.
    rewrite Hcache, Hblob in Hv2. unfold cache_in_sync in Hsync.
    destruct (_options_cached (self st)) as [l0|]; [|done].
    destruct Hv2 as [-> ->]. by rewrite app_nil_r. }
  rewrite (list_lookup_total_correct _ _ _ Hv).
  destruct (formfield_registry !! field_type (self st)) as [cls|];
    [|discriminate].
  pose proof (decode_blob_wf (_options (self st))) as Hwf.
  destruct (decode_blob (_options (self st))) as [| | | | |d] eqn:Hd;
    try discriminate.
  destruct (decide (invalid_keys d cls = ∅)) as [He|Hne];
    intros [= <-]; simpl; exists cls, d; eexists;
    (split; [done|]); (split; [done|]); (split; [reflexivity|]); simpl.
  - rewrite Hblob, Hd. f_equal. symmetry. apply filter_all.
    intros [k v] Hin. simpl.
    destruct (decide (k ∈ _meta cls)) as [|Hk]; [done|].
    assert (Hinv : k ∈ invalid_keys d cls).
    { unfold invalid_keys. apply elem_of_difference.
      rewrite !elem_of_list_to_set. split; [|done].
      unfold dict_keys. apply list_elem_of_fmap. by exists (k, v). }
    rewrite He in Hinv. by apply not_elem_of_empty in Hinv.
  - apply decode_dumps. by apply wf_json_filter.
Qed.

(** *** generate_form_field *)

(** What the call leaves behind on an instance without cache: the columns
    are untouched, but the object that [options] caches is the
    dictionary of keyword arguments, [name] and [label] included. *)
Lemma generate_form_field_run (st : state) (form : Form) (cls : FieldType)
    (d : dict json) :
  _options_cached (self st) = None →
  formfield_registry !! field_type (self st) = Some cls →
  decode_blob (_options (self st)) = JObj d →
  let kwargs := dict_update d [("name", JStr (name (self st)));
                               ("label", JStr (label (self st)))] in
  ∃ l extra,
    generate_form_field form st
    = (match construct cls kwargs with
       | Ok field => Ok (field, contribute_to_form cls field form)
       | Raise e => Raise e
       end,
       mkState (with_cached (Some l) (self st))
         (<[l := JObj kwargs]> (heap st ++ extra)%list) (written st))
    ∧ (<[l := JObj kwargs]> (heap st ++ extra)%list) !! l
      = Some (JObj kwargs).
Proof.
  intros Hc Hreg Hd kwargs.
  destruct (options_run st) as (l & extra & Hopt & Hv).
  rewrite Hc, Hd in Hv. exists l, extra.
  assert (Hlt : (l < length (heap st ++ extra)%list)%nat)
    by (by eapply lookup_lt_Some).
  split; [|by apply list_lookup_insert_eq].
  destruct st as [f h w]. simpl in Hc, Hreg, Hd, Hopt, Hv, Hlt, kwargs |- *.
  unfold generate_form_field. unfold bind at 1; simpl.
  unfold bind at 1, lift, formfield_registry_get. rewrite Hreg.
  unfold bind at 1, get_form_field_kwargs. unfold bind at 1.
  rewrite Hopt. unfold bind at 1, read; simpl.
  rewrite (list_lookup_total_correct _ _ _ Hv).
  unfold bind at 1; simpl. unfold bind at 1, write, ret; simpl.
  unfold bind at 1; simpl.
  rewrite list_lookup_total_insert_eq by done.
  unfold bind, lift, ret. fold kwargs.
  by destruct (construct cls kwargs).
Qed.

(** *** pretty_value *)

Global Instance key_le_total : Total key_le.
Proof. intros a b. apply String.leb_total. Qed.

Lemma pretty_value_undecodable (value : string) :
  json_loads value = None → pretty_value value = Ok value.
Proof. intros H. unfold pretty_value. by rewrite H. Qed.

Lemma pretty_value_mapping (value : string) (d : dict json) :
  json_loads value = Some (JObj d) →
  ∃ items,
    pretty_value value
    = Ok (String.concat ""
            (["<dl>"] ++ map render_item items ++ ["</dl>"]))
    ∧ items ≡ₚ d ∧ Sorted key_le items.
Proof.
  intros H. exists (merge_sort key_le d). unfold pretty_value. rewrite H.
  split; [done|]. split.
  - apply merge_sort_Permutation.
  - apply Sorted_merge_sort, _.
Qed.

Lemma pretty_value_non_mapping (value : string) (v : json) :
  json_loads value = Some v →
  (∀ d, v ≠ JObj d) →
  pretty_value value = Raise AttributeError.
Proof.
  intros H Hv. unfold pretty_value. rewrite H.
  destruct v; try done. by destruct (Hv kvs).
Qed.

End Properties.

(** ** The reference codec satisfies the contract of the json module *)

Section RefCodec.
Import Ref.

Lemma json_ind_nested (P : json → Prop) :
  P JNull → (∀ b, P (JBool b)) → (∀ z, P (JNum z)) → (∀ s, P (JStr s)) →
  (∀ l, Forall P l → P (JArr l)) →
  (∀ d, Forall (λ kv, P kv.2) d → P (JObj d)) →
  ∀ v, P v.
Proof.
  intros Hnull Hbool Hnum Hstr Harr Hobj.
  fix IH 1. intros [| b | z | s | l | d].
  - exact Hnull.
  - apply Hbool.
  - apply Hnum.
  - apply Hstr.
  - apply Harr. induction l as [|x l IHl]; constructor; [apply IH|exact IHl].
  - apply Hobj.
    induction d as [|[k x] d IHd]; constructor; [apply IH|exact IHd].
Qed.

(** *** Numerals *)

Lemma read_print_uint (d : uint) (k : string) :
  no_digit k → read_uint (print_uint d k) = (d, k).
Proof.
  intros Hk. induction d; simpl; try (by rewrite IHd).
  destruct k as [|c k]; [done|]. simpl in *. by rewrite Hk.
Qed.

Lemma to_uint_head (p : positive) :
  match Pos.to_uint p with Nil | D0 _ => False | _ => True end.
Proof.
  pose proof (Unsigned.to_uint_nonnil p) as Hnil.
  pose proof (Unsigned.to_uint_nonzero p) as Hzero.
  assert (Hnorm : unorm (Pos.to_uint p) = Pos.to_uint p).
  { rewrite <- (Unsigned.to_of (Pos.to_uint p)), Unsigned.of_to. done. }
  destruct (Pos.to_uint p) as [|u| | | | | | | | |]; try done.
  rewrite unorm_D0 in Hnorm.
  destruct (uint_eq_dec u Nil) as [->|Hu]; [done|].
  pose proof (nb_digits_unorm u Hu) as Hle.
  rewrite Hnorm in Hle. simpl in Hle. lia.
Qed.

Lemma parse_print_pos (p : positive) (k : string) :
  no_digit k →
  parse_nat (print_uint (Pos.to_uint p) k) = Some (Npos p, k).
Proof.
  intros Hk. unfold parse_nat. rewrite read_print_uint by done.
  pose proof (to_uint_head p) as Hhd.
  pose proof (Unsigned.of_to p) as Hof.
  unfold N.of_uint.
  destruct (Pos.to_uint p); try done; by rewrite Hof.
Qed.

(** *** String literals *)

Lemma parse_print_char (c : ascii) (r : string) :
  parse_chars (print_char c r)
  = match parse_chars r with
    | Some (cs, rest) => Some (String c cs, rest)
    | None => None
    end.
Proof. destruct c as [[] [] [] [] [] [] [] []]; reflexivity. Qed.

Lemma parse_print_chars (s k : string) :
  parse_chars (print_chars s (String dquote k)) = Some (s, k).
Proof.
  induction s as [|c s IH]; [reflexivity|].
  cbn [print_chars]. by rewrite parse_print_char, IH.
Qed.

(** *** Values *)

Lemma print_arr (x : json) (l : list json) (k : string) :
  print (JArr (x :: l)) k = String "[" (print x (print_elements l k)).
Proof.
  simpl. do 2 f_equal. induction l as [|y l IH]; simpl; [done|].
  by rewrite IH.
Qed.

Lemma print_obj (key : string) (x : json) (d : dict json) (k : string) :
  print (JObj ((key, x) :: d)) k
  = String "{" (print_str key (": " ++ print x (print_members d k))).
Proof.
  simpl. do 4 f_equal. induction d as [|[key' y] d IH]; simpl; [done|].
  by rewrite IH.
Qed.

Lemma json_size_arr (l : list json) :
  json_size (JArr l) = S (elements_size l).
Proof. induction l as [|x l IH]; [done|]. simpl in *. lia. Qed.

Lemma json_size_obj (d : dict json) :
  json_size (JObj d) = S (members_size d).
Proof. induction d as [|x d IH]; [done|]. simpl in *. lia. Qed.

(** The text of a value starts with a character of the value. *)
Lemma print_start (v : json) (k : string) :
  ∃ c r, print v k = String c r
         ∧ is_ws c = false ∧ Ascii.eqb c "]" = false.
Proof.
  destruct v as [| [] | [|p|p] | s | [|x l] | [|[key x] d]];
    try (by eexists _, _).
  simpl. pose proof (to_uint_head p) as H.
  destruct (Pos.to_uint p); try done; by eexists _, _.
Qed.

Lemma skip_ws_print (v : json) (k : string) :
  skip_ws (print v k) = print v k.
Proof.
  destruct (print_start v k) as (c & r & -> & Hws & _).
  simpl. by rewrite Hws.
Qed.

Lemma no_digit_elements (l : list json) (k : string) :
  no_digit (print_elements l k).
Proof. by destruct l. Qed.

Lemma no_digit_members (d : dict json) (k : string) :
  no_digit (print_members d k).
Proof. by destruct d as [|[]]. Qed.

Lemma expect_app (lit k : string) : expect lit (lit ++ k) = Some k.
Proof.
  induction lit as [|c lit IH]; [done|]. simpl.
  by rewrite Ascii.eqb_refl.
Qed.

Lemma parse_elements_step (n : nat) (r : string) :
  parse_elements (S n) (String "," (String " " r))
  = ('(v, r2) ← parse_value n (skip_ws r);
     '(vs, r3) ← parse_elements n r2;
     Some (v :: vs, r3)).
Proof. reflexivity. Qed.

Lemma parse_print_elements (l : list json) :
  Forall parses_back l →
  ∀ n k, Forall wf_json l → (elements_size l < n)%nat →
         parse_elements n (print_elements l k) = Some (l, k).
Proof.
  induction 1 as [|y l Hy _ IH]; intros n k Hwf Hn.
  - destruct n; [lia|]. reflexivity.
  - destruct n; [lia|]. apply Forall_cons in Hwf as [Hwy Hwl].
    simpl in Hn. cbn [print_elements].
    change (", " ++ ?r) with (String "," (String " " r)).
    rewrite parse_elements_step, skip_ws_print.
    rewrite Hy by (done || lia || apply no_digit_elements). simpl.
    by rewrite IH by (done || lia).
Qed.

Lemma parse_member_step (n : nat) (r : string) :
  parse_member (S n) (String dquote r)
  = ('(key, r1) ← parse_chars r;
     match skip_ws r1 with
     | EmptyString => None
     | String c2 r2 =>
         if Ascii.eqb c2 ":" then
           '(v, r3) ← parse_value n (skip_ws r2); Some ((key, v), r3)
         else None
     end).
Proof. reflexivity. Qed.

Lemma parse_print_member (key : string) (x : json) :
  parses_back x →
  ∀ n k, wf_json x → (json_size x < n)%nat → no_digit k →
         parse_member n (print_str key (": " ++ print x k))
         = Some ((key, x), k).
Proof.
  intros Hx n k Hwf Hn Hk. destruct n; [lia|].
  change (": " ++ print x k) with (String ":" (String " " (print x k))).
  unfold print_str. rewrite parse_member_step, parse_print_chars. simpl.
  rewrite skip_ws_print, Hx by (done || lia). reflexivity.
Qed.

Lemma parse_members_step (n : nat) (r : string) :
  parse_members (S n) (String "," (String " " r))
  = ('(kv, r2) ← parse_member n (skip_ws r);
     '(kvs, r3) ← parse_members n r2;
     Some (kv :: kvs, r3)).
Proof. reflexivity. Qed.

Lemma parse_print_members (d : dict json) :
  Forall (λ kv, parses_back kv.2) d →
  ∀ n k, Forall (λ kv, wf_json kv.2) d → (members_size d < n)%nat →
         parse_members n (print_members d k) = Some (d, k).
Proof.
  induction 1 as [|[key y] d Hy _ IH]; intros n k Hwf Hn.
  - destruct n; [lia|]. reflexivity.
  - destruct n; [lia|]. apply Forall_cons in Hwf as [Hwy Hwd].
    simpl in Hn, Hy, Hwy. cbn [print_members].
    change (", " ++ ?r) with (String "," (String " " r)).
    rewrite parse_members_step.
    change (skip_ws (print_str key ?r)) with (print_str key r).
    rewrite parse_print_member
      by (done || lia || apply no_digit_members). simpl.
    by rewrite IH by (done || lia).
Qed.

Lemma parse_value_nat (n : nat) (c : ascii) (r : string) (f : uint → uint) :
  digit_of c = Some f →
  parse_value (S n) (String c r)
  = ('(m, rest) ← parse_nat (String c r); Some (JNum (Z.of_N m), rest)).
Proof. destruct c as [[] [] [] [] [] [] [] []]; by intros. Qed.

Lemma parse_print_num (z : Z) : parses_back (JNum z).
Proof.
  intros n k _ Hn Hk. destruct n; [simpl in Hn; lia|].
  destruct z as [|p|p]; cbn [print print_int].
  - rewrite (parse_value_nat _ _ _ D0) by done.
    unfold parse_nat. change (String "0" k) with (print_uint (D0 Nil) k).
    by rewrite read_print_uint.
  - pose proof (parse_print_pos p k Hk) as Hp.
    pose proof (to_uint_head p) as Hhd.
    destruct (Pos.to_uint p) eqn:E; try done; cbn [print_uint] in *;
      (erewrite parse_value_nat by reflexivity); by rewrite Hp.
  - change (parse_value (S n) (String "-" ?r))
      with ('(m, rest) ← parse_nat r; Some (JNum (- Z.of_N m), rest)).
    by rewrite parse_print_pos.
Qed.

Theorem parse_print (v : json) : parses_back v.
Proof.
  induction v as [| b | z | s | l IH | d IH] using json_ind_nested.
  - intros [|n] k _ Hn _; [simpl in Hn; lia|]. reflexivity.
  - intros [|n] k _ Hn _; [simpl in Hn; lia|]. by destruct b.
  - apply parse_print_num.
  - intros [|n] k _ Hn _; [simpl in Hn; lia|].
    change (parse_value (S n) (print (JStr s) k))
      with ('(str, rest) ← parse_chars (print_chars s (String dquote k));
            Some (JStr str, rest)).
    by rewrite parse_print_chars.
  - intros n k Hwf Hn Hk. rewrite json_size_arr in Hn.
    apply wf_json_arr in Hwf.
    destruct n; [lia|]. destruct l as [|x l]; [reflexivity|].
    apply Forall_cons in IH as [Hx IH].
    apply Forall_cons in Hwf as [Hwx Hwl].
    simpl in Hn. rewrite print_arr.
    destruct (print_start x (print_elements l k)) as (c & r & E & Hws & Hc).
    change (parse_value (S n) (String "[" ?t))
      with (match skip_ws t with
            | EmptyString => None
            | String c1 r1 =>
                if Ascii.eqb c1 "]" then Some (JArr [], r1)
                else
                  '(v, r2) ← parse_value n (String c1 r1);
                  '(vs, r3) ← parse_elements n r2;
                  Some (JArr (v :: vs), r3)
            end).
    rewrite skip_ws_print, E, Hc, <- E.
    rewrite Hx by (done || lia || apply no_digit_elements). simpl.
    by rewrite parse_print_elements by (done || lia).
  - intros n k Hwf Hn Hk. rewrite json_size_obj in Hn.
    apply wf_json_obj in Hwf as [Hnd Hwf].
    destruct n; [lia|]. destruct d as [|[key x] d]; [reflexivity|].
    apply Forall_cons in IH as [Hx IH].
    apply Forall_cons in Hwf as [Hwx Hwd].
    simpl in Hn, Hx, Hwx. rewrite print_obj.
    change (parse_value (S n) (String "{" (print_str key ?t)))
      with ('(kv, r2) ← parse_member n (print_str key t);
            '(kvs, r3) ← parse_members n r2;
            Some (JObj (dict_of_pairs (kv :: kvs)), r3)).
    rewrite parse_print_member
      by (done || lia || apply no_digit_members). simpl.
    rewrite parse_print_members by (done || lia). simpl.
    by rewrite dict_of_pairs_nodup.
Qed.

(** *** Enough calls *)

Lemma print_uint_length (d : uint) (k : string) :
  String.length (print_uint d k) = (nb_digits d + String.length k)%nat.
Proof. induction d; simpl; auto. Qed.

Lemma print_chars_length (s k : string) :
  (String.length k ≤ String.length (print_chars s k))%nat.
Proof.
  induction s as [|c s IH]; simpl; [lia|].
  etrans; [exact IH|]. generalize (print_chars s k). intros r.
  unfold print_char. repeat case_match; simpl; lia.
Qed.

Lemma string_length_app (s t : string) :
  String.length (s ++ t) = (String.length s + String.length t)%nat.
Proof.
  induction s as [|c s IH]; [done|].
  change (String c s ++ t) with (String c (s ++ t)). simpl. by rewrite IH.
Qed.

Lemma print_length (v : json) :
  ∀ k, (json_size v + String.length k ≤ String.length (print v k))%nat.
Proof.
  induction v as [| b | z | s | l IH | d IH] using json_ind_nested;
    intros k.
  - cbn [print]. rewrite string_length_app. simpl. lia.
  - destruct b; cbn [print]; rewrite string_length_app; simpl; lia.
  - destruct z as [|p|p]; simpl; [lia|..]; rewrite print_uint_length;
      pose proof (Unsigned.to_uint_nonnil p);
      destruct (Pos.to_uint p); simpl; try done; lia.
  - simpl. pose proof (print_chars_length s (String dquote k)).
    simpl in *. lia.
  - rewrite json_size_arr.
    destruct l as [|x l];
      [cbn [print]; rewrite string_length_app; simpl; lia|].
    apply Forall_cons in IH as [Hx IH]. rewrite print_arr.
    cbn [String.length elements_size].
    specialize (Hx (print_elements l k)).
    assert (elements_size l + String.length k
            < String.length (print_elements l k))%nat; [|lia].
    clear Hx. induction IH as [|y l Hy _ IHl]; [simpl; lia|].
    cbn [print_elements elements_size]. rewrite string_length_app. simpl.
    specialize (Hy (print_elements l k)). lia.
  - rewrite json_size_obj.
    destruct d as [|[key x] d];
      [cbn [print]; rewrite string_length_app; simpl; lia|].
    apply Forall_cons in IH as [Hx IH]. rewrite print_obj.
    simpl in Hx.
    pose proof (print_chars_length key
      (String dquote (": " ++ print x (print_members d k)))) as Hkey.
    cbn [String.length members_size print_str snd] in *.
    rewrite string_length_app in Hkey. simpl in Hkey.
    specialize (Hx (print_members d k)).
    assert (members_size d + String.length k
            < String.length (print_members d k))%nat; [|lia].
    clear Hx Hkey. induction IH as [|[key' y] d Hy _ IHd]; [simpl; lia|].
    simpl in Hy. specialize (Hy (print_members d k)).
    pose proof (print_chars_length key'
      (String dquote (": " ++ print y (print_members d k)))) as Hkey.
    cbn [print_members members_size print_str snd String.length] in *.
    rewrite string_length_app in *. simpl in *. lia.
Qed.

Theorem ref_json_roundtrip (v : json) :
  wf_json v → json_loads (json_dumps v) = Some v.
Proof.
  intros Hwf. unfold json_loads, json_dumps.
  rewrite skip_ws_print, parse_print; [done|done| |done].
  pose proof (print_length v "") as H. simpl in H. lia.
Qed.

Theorem ref_json_dumps_truthy (v : json) : truthy (json_dumps v) = true.
Proof.
  unfold json_dumps. by destruct (print_start v "") as (c & r & -> & _).
Qed.

(** *** Decoded values are well formed *)

Lemma dict_set_keys {V} (k : string) (v : V) (d : dict V) :
  (dict_set k v d).*1
  = if decide (k ∈ d.*1) then d.*1 else (d.*1 ++ [k])%list.
Proof.
  induction d as [|[k' v'] d IH]; [done|]. csimpl.
  destruct (String.eqb_spec k k') as [->|Hne]; csimpl.
  - rewrite decide_True; [done|left].
  - rewrite IH. destruct (decide (k ∈ d.*1)) as [Hin|Hin].
    + rewrite decide_True; [done|by right].
    + rewrite decide_False; [done|]. by intros [?|?]%elem_of_cons.
Qed.

Lemma dict_set_Forall {V} (P : string * V → Prop) (k : string) (v : V)
    (d : dict V) :
  (∀ k', P (k', v)) → Forall P d → Forall P (dict_set k v d).
Proof.
  intros Hv. induction 1 as [|[k' v'] d Hx Hd IH]; simpl.
  - by constructor.
  - destruct (String.eqb k k'); constructor; auto.
Qed.

Lemma dict_update_wf (pairs d : dict json) :
  NoDup (d.*1) → Forall (λ kv, wf_json kv.2) d →
  Forall (λ kv, wf_json kv.2) pairs →
  wf_json (JObj (dict_update d pairs)).
Proof.
  unfold dict_update. revert d.
  induction pairs as [|[k v] pairs IH]; intros d Hnd Hd Hp; simpl.
  - by apply wf_json_obj.
  - apply Forall_cons in Hp as [Hv Hp]. apply IH; [|by apply dict_set_Forall|done].
    simpl. rewrite dict_set_keys. destruct (decide (k ∈ d.*1)); [done|].
    apply NoDup_app. split; [done|]. split; [|apply NoDup_singleton].
    intros x Hx ->%list_elem_of_singleton. done.
Qed.

Ltac split_results :=
  repeat case_match; simplify_option_eq;
  repeat (match goal with
          | p : (_ * _)%type |- _ => destruct p; simplify_option_eq
          end).

Local Opaque wf_json.

Lemma parse_wf (n : nat) :
  (∀ s v r, parse_value n s = Some (v, r) → wf_json v)
  ∧ (∀ s vs r, parse_elements n s = Some (vs, r) → Forall wf_json vs)
  ∧ (∀ s kv r, parse_member n s = Some (kv, r) → wf_json kv.2)
  ∧ (∀ s kvs r, parse_members n s = Some (kvs, r) →
                Forall (λ kv, wf_json kv.2) kvs).
Proof.
  induction n as [|n (IHv & IHe & IHm & IHms)]; [by repeat split|].
  repeat split.
  - intros [|c s] v r; [done|]. cbn [parse_value]. intros H.
    split_results;
      first [ done
            | apply wf_json_arr; constructor; eauto
            | apply wf_json_obj; split; constructor
            | apply dict_update_wf;
              [constructor|constructor|constructor; eauto] ].
  - intros s vs r. cbn [parse_elements]. intros H.
    split_results; constructor; eauto.
  - intros s kv r. cbn [parse_member]. intros H.
    split_results; split_results; eauto.
  - intros s kvs r. cbn [parse_members]. intros H.
    split_results; constructor; eauto.
Qed.

Local Transparent wf_json.

Theorem ref_json_loads_wf (s : string) (v : json) :
  json_loads s = Some v → wf_json v.
Proof.
  unfold json_loads. intros H.
  destruct (parse_value _ _) as [[x r]|] eqn:E; simplify_option_eq.
  case_match; simplify_eq. by eapply parse_wf.
Qed.

End RefCodec.

(** ** The fields of a form, in the order of the query *)

Section Fields.

Lemma meta_ordering_position (form : FormModel) (rows : list StoredField) :
  Forall (λ r, row_parent_form (columns r) = form_pk form) rows →
  StronglySorted meta_ordering rows →
  StronglySorted
    (λ a b, row_position (columns a) ≤ row_position (columns b)) rows.
Proof.
  intros Hown Hs. induction Hs as [|a rows Hs IH Ha]; [constructor|].
  apply Forall_cons in Hown as [Hpa Hown]. constructor; [by apply IH|].
  apply Forall_forall. intros b Hb.
  pose proof (proj1 (Forall_forall _ _) Ha b Hb) as Hab.
  pose proof (proj1 (Forall_forall _ _) Hown b Hb) as Hpb.
  unfold meta_ordering in Hab. simpl in Hpa, Hpb. lia.
Qed.

(** C8, as the code has it: [get_fields_as_dict] maps the name of each
    field of the form to its label, in the order in which the query
    returns the rows, and that order is ascending in [position].  Which
    of two fields with the same position comes first is left to the
    database. *)
Theorem get_fields_as_dict_by_position (form : FormModel)
    (table rows : list StoredField) :
  queryset_all form table rows →
  NoDup (map (λ r, row_name (columns r)) rows) →
  get_fields_as_dict rows = values_list_name_label rows
  ∧ rows ≡ₚ fields_of form table
  ∧ StronglySorted
      (λ a b, row_position (columns a) ≤ row_position (columns b)) rows.
Proof.
  intros [Hperm Hsorted] Hnames. split; [|split; [done|]].
  - unfold get_fields_as_dict. apply dict_of_pairs_nodup.
    unfold values_list_name_label.
    rewrite <- list_fmap_compose. exact Hnames.
  - apply (meta_ordering_position form); [|done].
    apply Forall_forall. intros r Hr. rewrite Hperm in Hr.
    unfold fields_of in Hr. by apply list_elem_of_filter in Hr as [? _].
Qed.

(** C8 with the tie-break by creation order fails: the database may
    answer with the younger of two fields of equal position first, and
    [get_fields_as_dict] then lists it first. *)
Lemma get_fields_as_dict_tie_counterexample :
  queryset_all Sample.form1 Sample.table [Sample.row_b; Sample.row_a]
  ∧ get_fields_as_dict [Sample.row_b; Sample.row_a]
    = [("second", "Second"); ("first", "First")]
  ∧ ¬ StronglySorted position_then_creation [Sample.row_b; Sample.row_a].
Proof.
  split; [split|split].
  - change (fields_of Sample.form1 Sample.table)
      with [Sample.row_a; Sample.row_b].
    apply perm_swap.
  - apply SSorted_cons; [apply SSorted_cons; [apply SSorted_nil|]|].
    + apply Forall_nil_2.
    + apply Forall_cons. split; [|apply Forall_nil_2].
      right. split; reflexivity || (simpl; lia).
  - reflexivity.
  - intros Hs. apply StronglySorted_inv in Hs as [_ Hs].
    apply Forall_cons in Hs as [Hs _].
    unfold position_then_creation in Hs. simpl in Hs. lia.
Qed.

End Fields.

(** ** The sample deployment: examples, failing inputs and instances of
    the theorems *)

Section Samples.
Import Sample.

(** The examples of the specification. *)
Example slugify_full_name : Ref.slugify "Full Name" = "full-name".
Proof. reflexivity. Qed.

Example save_drops_bogus :
  save bogus_state
  = (Ok tt,
     mkState
       (mkFormFieldModel 1 "text" "Full Name" "full-name"
          (Some (Ref.json_dumps (JObj max_length_50))) 0 None)
       [JObj []; JObj max_length_50]
       [mkFormFieldRow 1 "text" "Full Name" "full-name"
          (Some (Ref.json_dumps (JObj max_length_50))) 0]).
Proof. vm_compute. reflexivity. Qed.

(** [save] after [generate_form_field]: the keys [name] and [label] that
    the call left in the cached dictionary are not declared by the schema
    and are dropped with the undeclared key of the blob. *)
Example save_after_generate :
  written ((generate [] ;; save)%method bogus_state).2
  = [mkFormFieldRow 1 "text" "Full Name" "full-name"
       (Some (Ref.json_dumps (JObj max_length_50))) 0].
Proof. vm_compute. reflexivity. Qed.

Example options_of_broken_blob :
  (read_options broken_state).1 = Ok (JObj []).
Proof. vm_compute. reflexivity. Qed.

Example pretty_value_sorts_keys :
  pretty (Ref.json_dumps (JObj [("b", JStr "2"); ("a", JStr "1 < 2")]))
  = Ok "<dl><dt>a</dt><dd>1 &lt; 2</dd><dt>b</dt><dd>2</dd></dl>".
Proof. vm_compute. reflexivity. Qed.

Example pretty_value_of_broken_value : pretty "{oops" = Ok "{oops".
Proof. vm_compute. reflexivity. Qed.

(** C3, failing input: the stored value [[1]] is valid JSON but not a
    mapping; [pretty_value] raises [AttributeError] instead of returning
    a rendering or the raw string. *)
Theorem pretty_value_raises_on_list :
  Ref.json_loads "[1]" = Some (JArr [JNum 1])
  ∧ pretty "[1]" = Raise AttributeError.
Proof. split; vm_compute; reflexivity. Qed.

(** C4, failing input: before the call the options of the instance are
    [{"max_length": 50}]; after [generate_form_field] they also hold
    [name] and [label], because the dictionary of keyword arguments is
    the cached object itself. *)
Theorem generate_form_field_changes_options :
  (read_options plain_state).1 = Ok (JObj max_length_50)
  ∧ ((generate [] ;; read_options)%method plain_state).1
    = Ok (JObj [("max_length", JNum 50); ("name", JStr "full-name");
                ("label", JStr "Full Name")]).
Proof. split; vm_compute; reflexivity. Qed.

(** Instances of the theorems. *)
Lemma save_sanitizes_options_witness :
  cache_in_sync Ref.json_loads bogus_state
  ∧ save bogus_state = (Ok tt, (save bogus_state).2)
  ∧ ∃ cls d row,
      registry !! field_type (self bogus_state) = Some cls
      ∧ decode_blob Ref.json_loads (_options (self bogus_state)) = JObj d
      ∧ written (save bogus_state).2
        = (written bogus_state ++ [row])%list
      ∧ decode_blob Ref.json_loads (row_options row)
        = JObj (filter (λ kv, kv.1 ∈ _meta cls) d).
Proof.
  split; [exact I|]. split; [vm_compute; reflexivity|].
  apply (save_sanitizes_options Ref.json_loads Ref.json_dumps Ref.slugify
           registry ref_json_roundtrip ref_json_loads_wf
           ref_json_dumps_truthy bogus_state (save bogus_state).2).
  - exact I.
  - vm_compute. reflexivity.
Defined.

Lemma options_getter_fail_soft_witness :
  _options_cached (self broken_state) = None
  ∧ ∃ l st',
      options broken_state = (Ok l, st')
      ∧ heap st' !! l = Some (JObj [])
      ∧ _options_cached (self st') = Some l
      ∧ row_of (self st') = row_of (self broken_state).
Proof.
  split; [reflexivity|].
  apply (options_getter_fail_soft Ref.json_loads broken_state).
  reflexivity.
Defined.

Lemma FormFieldModel_save_name_witness :
  save bogus_state = (Ok tt, (save bogus_state).2)
  ∧ name (self (save bogus_state).2) = "full-name".
Proof.
  split; [vm_compute; reflexivity|].
  apply (FormFieldModel_save_name Ref.json_loads Ref.json_dumps Ref.slugify
           registry bogus_state (save bogus_state).2).
  vm_compute. reflexivity.
Defined.

Lemma unregistered_field_type_raises_witness :
  registry !! field_type (self unknown_state) = None
  ∧ generate [] unknown_state = (Raise NotFound, unknown_state)
  ∧ ∃ st', save unknown_state = (Raise NotFound, st')
           ∧ written st' = written unknown_state.
Proof.
  split; [vm_compute; reflexivity|].
  apply (unregistered_field_type_raises Ref.json_loads Ref.json_dumps
           Ref.slugify registry unknown_state []).
  vm_compute. reflexivity.
Defined.

Lemma options_set_get_witness :
  heap assign_state !! 0%nat = Some (JObj with_bogus)
  ∧ wf_json (JObj with_bogus)
  ∧ ∃ st1 l' st2,
      set_options Ref.json_dumps 0%nat assign_state = (Ok tt, st1)
      ∧ options st1 = (Ok l', st2)
      ∧ heap st2 !! l' = Some (JObj with_bogus).
Proof.
  assert (Hwf : wf_json (JObj with_bogus)).
  { apply wf_json_obj. split.
    - apply NoDup_cons. split; [|apply NoDup_singleton].
      intros Hin%list_elem_of_singleton. discriminate Hin.
    - repeat constructor. }
  split; [reflexivity|]. split; [exact Hwf|].
  apply (options_set_get Ref.json_loads Ref.json_dumps ref_json_roundtrip
           ref_json_dumps_truthy assign_state 0%nat with_bogus).
  - reflexivity.
  - exact Hwf.
Defined.

Lemma get_fields_as_dict_by_position_witness :
  queryset_all form1 table [row_b; row_a]
  ∧ NoDup (map (λ r, row_name (columns r)) [row_b; row_a])
  ∧ get_fields_as_dict [row_b; row_a]
    = values_list_name_label [row_b; row_a]
  ∧ [row_b; row_a] ≡ₚ fields_of form1 table
  ∧ StronglySorted
      (λ a b, row_position (columns a) ≤ row_position (columns b))
      [row_b; row_a].
Proof.
  assert (Hq : queryset_all form1 table [row_b; row_a]).
  { split.
    - change (fields_of form1 table) with [row_a; row_b]. apply perm_swap.
    - apply SSorted_cons; [apply SSorted_cons; [apply SSorted_nil|]|].
      + apply Forall_nil_2.
      + apply Forall_cons. split; [|apply Forall_nil_2].
        right. split; reflexivity || (simpl; lia). }
  assert (Hn : NoDup (map (λ r, row_name (columns r)) [row_b; row_a])).
  { apply NoDup_cons. split; [|apply NoDup_singleton].
    intros Hin%list_elem_of_singleton. discriminate Hin. }
  split; [exact Hq|]. split; [exact Hn|].
  exact (get_fields_as_dict_by_position form1 table [row_b; row_a] Hq Hn).
Defined.

End Samples.


(** ** Further properties of the models *)

Section FormModelProperties.

Lemma FormModel_save_normalized (f : FormModel) :
  normalized (FormModel_save f).
Proof.
  destruct f as [p n su sc a ft st].
  unfold normalized, FormModel_save; simpl. rewrite !negb_if.
  split; [|split].
  - destruct (endswith_slash su) eqn:E; [done|by rewrite endswith_slash_app].
  - destruct (truthy sc) eqn:Et; [|by apply truthy_app_r].
    destruct (endswith_slash sc); [done|by apply truthy_app_r].
  - destruct (truthy sc) eqn:Et; [|by rewrite endswith_slash_app].
    destruct (endswith_slash sc) eqn:E; [done|by rewrite endswith_slash_app].
Qed.

Lemma FormModel_save_of_normalized (f : FormModel) :
  normalized f → FormModel_save f = f.
Proof.
  destruct f as [p n su sc a ft st]. unfold normalized, FormModel_save; simpl.
  intros (-> & -> & ->). reflexivity.
Qed.

(** X1: the records that [FormModel.save] leaves as they are are exactly
    those whose [submit_url] ends with a slash and whose [success_url] is
    not empty and ends with a slash. *)
Theorem FormModel_save_fixpoint (f : FormModel) :
  FormModel_save f = f ↔ normalized f.
Proof.
  split.
  - intros <-. apply FormModel_save_normalized.
  - apply FormModel_save_of_normalized.
Qed.

(** X2: once a form has been saved, its [success_url] no longer follows
    the [submit_url]: after the caller assigns another [submit_url] and
    saves again, the [success_url] is the one of the first save. *)
Theorem FormModel_save_keeps_success_url (f : FormModel) (url : string) :
  success_url (FormModel_save (with_submit_url url (FormModel_save f)))
  = success_url (FormModel_save f).
Proof.
  destruct (FormModel_save_normalized f) as (_ & Ht & He).
  destruct (FormModel_save f) as [p n su sc a ft st]. simpl in Ht, He.
  unfold FormModel_save, with_submit_url; simpl. by rewrite Ht, He.
Qed.

End FormModelProperties.

Section FieldProperties.

Context (json_loads : string → option json) (json_dumps : json → string).
Context (slugify escape : string → string) (force_text : json → string).
Context {Field Form : Type}.
Context (formfield_registry : gmap string (FieldType Field Form)).

Local Abbreviation options := (options json_loads).
Local Abbreviation set_options := (set_options json_dumps).
Local Abbreviation get_form_field_kwargs :=
  (get_form_field_kwargs json_loads).
Local Abbreviation generate_form_field :=
  (generate_form_field json_loads formfield_registry).
Local Abbreviation FormFieldModel_save :=
  (FormFieldModel_save json_loads json_dumps slugify formfield_registry).
Local Abbreviation render_item := (render_item escape force_text).
Local Abbreviation pretty_value :=
  (pretty_value json_loads escape force_text).
Local Abbreviation decode_blob := (decode_blob json_loads).
Local Abbreviation cache_in_sync := (cache_in_sync json_loads).
Local Abbreviation named := (named slugify).

Set Default Proof Using "Type".

(** *** The options property *)

(** On an instance without cache the getter returns a new object. *)
Lemma options_run_fresh (st : state) :
  _options_cached (self st) = None →
  ∃ l extra,
    options st
    = (Ok l, mkState (with_cached (Some l) (self st))
               (heap st ++ extra) (written st))
    ∧ (length (heap st) ≤ l)%nat
    ∧ (heap st ++ extra)%list !! l
      = Some (decode_blob (_options (self st))).
Proof.
  intros Hc. destruct st as [f h w]. simpl in Hc |- *.
  unfold options, bind, get_self; simpl. rewrite Hc.
  unfold alloc, modify_self, bind, get_self, set_self, ret; simpl.
  assert (Hfst : (h ++ [JObj []])%list !! length h = Some (JObj []))
    by (by rewrite lookup_app_r, Nat.sub_diag by lia).
  unfold decode_blob.
  destruct (_options f) as [s|]; [destruct (truthy s)|];
    [destruct (json_loads s) as [v|]|..].
  - exists (length (h ++ [JObj []])), [JObj []; v]. simpl.
    split; [by rewrite <- app_assoc|]. rewrite length_app. simpl.
    split; [lia|]. rewrite lookup_app_r by lia.
    by replace (length h + 1 - length h)%nat with 1%nat by lia.
  - by exists (length h), [JObj []].
  - by exists (length h), [JObj []].
  - by exists (length h), [JObj []].
Qed.

(** X3: reading [options] a second time returns the object of the first
    read and changes nothing: the blob is decoded at most once. *)
Theorem options_read_twice (st : state) :
  ∃ l st1, options st = (Ok l, st1) ∧ options st1 = (Ok l, st1).
Proof.
  destruct (options_run json_loads st) as (l & extra & Hopt & _).
  eexists l, _. split; [exact Hopt|]. by apply options_cached.
Qed.

(** X4: only the setter drops the cache.  After a read, an assignment to
    the column [_options] itself is not seen by the getter, which keeps
    returning the object it cached. *)
Theorem options_ignores_blob_assignment (st st1 : state) (l : loc)
    (blob : option string) :
  options st = (Ok l, st1) →
  (modify_self (with_options blob) ;; options) st1
  = (Ok l, mkState (with_options blob (self st1)) (heap st1) (written st1)).
Proof.
  intros Hopt. destruct (options_run json_loads st) as (l2 & extra & Hopt2 & _).
  rewrite Hopt in Hopt2.
  assert (Hc : _options_cached (self st1) = Some l).
  { injection Hopt2 as Hl Hst. rewrite Hst, Hl. reflexivity. }
  unfold bind at 1, modify_self. unfold bind at 1, get_self, set_self; simpl.
  by rewrite (options_cached json_loads _ l).
Qed.

(** X5: the setter keeps a serialization, not the object it is given.
    The object read back afterwards is a new one, and the assigned object
    is left as it was. *)
Theorem options_set_get_fresh_object (st : state) (l : loc) (v : json) :
  heap st !! l = Some v →
  ∃ st1 l' st2,
    set_options l st = (Ok tt, st1)
    ∧ options st1 = (Ok l', st2)
    ∧ l' ≠ l
    ∧ heap st2 !! l = Some v.
Proof.
  intros Hl. rewrite (set_options_run json_dumps). set (st1 := mkState _ _ _).
  destruct (options_run_fresh st1) as (l' & extra & Hopt & Hle & _);
    [reflexivity|].
  eexists st1, l', _. split; [done|]. split; [exact Hopt|].
  pose proof (lookup_lt_Some _ _ _ Hl) as Hlt. simpl in Hle.
  split; [lia|]. simpl. by rewrite lookup_app_l.
Qed.

(** *** The keyword arguments *)

Lemma dict_get_set_eq {V} (k : string) (v : V) (d : dict V) :
  dict_get k (dict_set k v d) = Some v.
Proof.
  induction d as [|[k' v'] d IH]; simpl.
  - by rewrite String.eqb_refl.
  - destruct (String.eqb k k') eqn:E; simpl; by rewrite E.
Qed.

Lemma dict_get_set_ne {V} (k k' : string) (v : V) (d : dict V) :
  k ≠ k' → dict_get k (dict_set k' v d) = dict_get k d.
Proof.
  intros Hne. induction d as [|[k2 v2] d IH]; simpl.
  - by rewrite (proj2 (String.eqb_neq k k')).
  - destruct (String.eqb_spec k' k2) as [->|Hk2]; simpl.
    + by rewrite (proj2 (String.eqb_neq k k2)).
    + by rewrite IH.
Qed.

Lemma dict_set_same {V} (k : string) (v : V) (d : dict V) :
  dict_get k d = Some v → dict_set k v d = d.
Proof.
  induction d as [|[k' v'] d IH]; simpl; [done|].
  destruct (String.eqb k k'); [by intros [= ->]|].
  intros H. by rewrite IH.
Qed.

Local Abbreviation kwargs_of f d :=
  (dict_update d [("name", JStr (name f)); ("label", JStr (label f))]).

Lemma kwargs_of_get (f : FormFieldModel) (d : dict json) :
  dict_get "name" (kwargs_of f d) = Some (JStr (name f))
  ∧ dict_get "label" (kwargs_of f d) = Some (JStr (label f))
  ∧ ∀ k, k ≠ "name" → k ≠ "label" →
         dict_get k (kwargs_of f d) = dict_get k d.
Proof.
  unfold dict_update; simpl. split; [|split].
  - by rewrite dict_get_set_ne, dict_get_set_eq.
  - by rewrite dict_get_set_eq.
  - intros k Hn Hl. by rewrite !dict_get_set_ne.
Qed.

Lemma kwargs_of_idem (f : FormFieldModel) (d : dict json) :
  kwargs_of f (kwargs_of f d) = kwargs_of f d.
Proof.
  destruct (kwargs_of_get f d) as (Hn & Hl & _).
  unfold dict_update in *; simpl in *.
  by rewrite (dict_set_same "name"), (dict_set_same "label").
Qed.

Lemma get_form_field_kwargs_run (st : state) :
  ∃ l extra,
    let st1 := mkState (with_cached (Some l) (self st))
                 (heap st ++ extra) (written st) in
    options st = (Ok l, st1)
    ∧ get_form_field_kwargs st
      = match (heap st ++ extra)%list !!! l with
        | JObj d =>
            (Ok l, mkState (with_cached (Some l) (self st))
                     (<[l := JObj (kwargs_of (self st) d)]>
                        (heap st ++ extra)%list)
                     (written st))
        | _ => (Raise AttributeError, st1)
        end.
Proof.
  destruct (options_run json_loads st) as (l & extra & Hopt & _).
  exists l, extra. split; [exact Hopt|].
  unfold get_form_field_kwargs. unfold bind at 1. rewrite Hopt.
  unfold bind at 1, read; simpl.
  destruct ((heap st ++ extra)%list !!! l); done.
Qed.

(** X6: the keyword arguments are the cached options object itself, with
    the name and the label of the instance stored under [name] and
    [label], whatever the options held under these two keys; every other
    option is passed on as it is. *)
Theorem get_form_field_kwargs_content (st : state) (d : dict json) :
  _options_cached (self st) = None →
  decode_blob (_options (self st)) = JObj d →
  ∃ l st' kw,
    get_form_field_kwargs st = (Ok l, st')
    ∧ _options_cached (self st') = Some l
    ∧ heap st' !! l = Some (JObj kw)
    ∧ dict_get "name" kw = Some (JStr (name (self st)))
    ∧ dict_get "label" kw = Some (JStr (label (self st)))
    ∧ ∀ k, k ≠ "name" → k ≠ "label" → dict_get k kw = dict_get k d.
Proof.
  intros Hc Hd.
  destruct (get_form_field_kwargs_run st) as (l & extra & Hopt & Hrun).
  destruct (options_run_fresh st Hc) as (l2 & extra2 & Hopt2 & _ & Hv).
  simpl in Hopt. rewrite Hopt in Hopt2.
  assert (l2 = l) as -> by congruence.
  assert (extra2 = extra) as ->.
  { injection Hopt2 as Hh. by apply app_inv_head in Hh. }
  rewrite Hd in Hv. rewrite (list_lookup_total_correct _ _ _ Hv) in Hrun.
  destruct (kwargs_of_get (self st) d) as (Hn & Hl & Hk).
  eexists l, _, _. split; [exact Hrun|]. simpl. split; [done|].
  split; [|done]. apply list_lookup_insert_eq. by eapply lookup_lt_Some.
Qed.

(** X7: building the keyword arguments twice is the same as building them
    once: the second call finds [name] and [label] in place and returns
    the same object in the same state. *)
Theorem get_form_field_kwargs_twice (st : state) :
  (get_form_field_kwargs ;; get_form_field_kwargs) st
  = get_form_field_kwargs st.
Proof.
  destruct (get_form_field_kwargs_run st) as (l & extra & _ & Hrun).
  unfold bind. rewrite Hrun.
  destruct ((heap st ++ extra)%list !!! l) as [| | | | |d] eqn:Hv; try done.
  apply lookup_total_JObj in Hv.
  pose proof (lookup_lt_Some _ _ _ Hv) as Hlt.
  set (st1 := mkState _ _ _).
  destruct (get_form_field_kwargs_run st1) as (l2 & extra2 & Hopt & ->).
  rewrite (options_cached json_loads st1 l) in Hopt by done.
  assert (l2 = l) as -> by congruence.
  assert (extra2 = []) as ->.
  { pose proof (f_equal (λ p, length (heap p.2)) Hopt) as Hh.
    simpl in Hh. rewrite length_app in Hh.
    destruct extra2; [done|simpl in Hh; lia]. }
  rewrite app_nil_r. unfold st1 at 1. simpl.
  rewrite list_lookup_total_insert_eq by done.
  unfold st1; simpl. rewrite list_insert_insert_eq.
  pose proof (kwargs_of_idem (self st) d) as Hid.
  unfold dict_update in Hid; simpl in Hid. by rewrite Hid.
Qed.

(** *** generate_form_field *)

Lemma generate_form_field_steps (st : state) (form : Form) :
  ∃ l extra,
    let h1 := (heap st ++ extra)%list in
    let f1 := with_cached (Some l) (self st) in
    options st = (Ok l, mkState f1 h1 (written st))
    ∧ generate_form_field form st
      = match formfield_registry !! field_type (self st) with
        | None => (Raise NotFound, st)
        | Some cls =>
            match h1 !!! l with
            | JObj d =>
                (match construct cls (kwargs_of (self st) d) with
                 | Ok field => Ok (field, contribute_to_form cls field form)
                 | Raise e => Raise e
                 end,
                 mkState f1 (<[l := JObj (kwargs_of (self st) d)]> h1)
                   (written st))
            | _ => (Raise AttributeError, mkState f1 h1 (written st))
            end
        end.
Proof.
  destruct (get_form_field_kwargs_run st) as (l & extra & Hopt & Hrun).
  exists l, extra. split; [exact Hopt|].
  unfold generate_form_field. unfold bind at 1, get_self.
  unfold bind at 1, lift, formfield_registry_get.
  destruct (formfield_registry !! field_type (self st)) as [cls|];
    [|by destruct st].
  unfold bind at 1. rewrite Hrun.
  destruct ((heap st ++ extra)%list !!! l) as [| | | | |d] eqn:Hv; try done.
  apply lookup_total_JObj in Hv.
  unfold bind at 1, read; simpl.
  rewrite list_lookup_total_insert_eq by (by eapply lookup_lt_Some).
  unfold bind, lift, ret.
  by destruct (construct cls _).
Qed.

(** X8: whatever its outcome, [generate_form_field] writes no row and
    leaves every column of the instance as it was; what it changes on the
    instance is the cached options object only. *)
Theorem generate_form_field_keeps_columns (st : state) (form : Form) :
  row_of (self (generate_form_field form st).2) = row_of (self st)
  ∧ written (generate_form_field form st).2 = written st.
Proof.
  destruct (generate_form_field_steps st form) as (l & extra & _ & ->).
  destruct (formfield_registry !! field_type (self st)) as [cls|]; [|done].
  destruct ((heap st ++ extra)%list !!! l); by destruct (self st).
Qed.

(** X9: on an instance without cache whose options decode to a
    dictionary, [generate_form_field] returns what the constructor of the
    registered field type makes of the options with [name] and [label],
    together with the form after [contribute_to_form]; an exception of the
    constructor is passed on and the form is not touched. *)
Theorem generate_form_field_result (st : state) (form : Form)
    (cls : FieldType Field Form) (d : dict json) :
  _options_cached (self st) = None →
  formfield_registry !! field_type (self st) = Some cls →
  decode_blob (_options (self st)) = JObj d →
  (generate_form_field form st).1
  = match construct cls (kwargs_of (self st) d) with
    | Ok field => Ok (field, contribute_to_form cls field form)
    | Raise e => Raise e
    end.
Proof.
  intros Hc Hreg Hd.
  destruct (generate_form_field_run json_loads formfield_registry
              st form cls d Hc Hreg Hd) as (l & extra & -> & _).
  reflexivity.
Qed.


(** *** FormFieldModel.save *)

Lemma named_more_columns (f : FormFieldModel) :
  parent_form (named f) = parent_form f ∧ position (named f) = position f.
Proof. unfold named. by destruct (truthy (name f)). Qed.

Lemma named_with_cached (c : option loc) (f : FormFieldModel) :
  named (with_cached c f) = with_cached c (named f).
Proof. unfold named. simpl. by destruct (truthy (name f)). Qed.

Lemma named_with_options (o : option string) (f : FormFieldModel) :
  named (with_options o f) = with_options o (named f).
Proof. unfold named. simpl. by destruct (truthy (name f)). Qed.

Lemma named_idem (f : FormFieldModel) : named (named f) = named f.
Proof.
  unfold named. destruct (truthy (name f)) eqn:E; [by rewrite E|].
  simpl. by destruct (truthy (slugify (label f))).
Qed.

(** X11: [save] writes exactly one row, the columns of the instance, when
    it returns, and no row when it raises; in both cases the parent form,
    the field type, the label and the position of the instance are what
    they were. *)
Theorem FormFieldModel_save_rows (st : state) :
  let r := FormFieldModel_save st in
  parent_form (self r.2) = parent_form (self st)
  ∧ field_type (self r.2) = field_type (self st)
  ∧ label (self r.2) = label (self st)
  ∧ position (self r.2) = position (self st)
  ∧ written r.2
    = match r.1 with
      | Ok _ => (written st ++ [row_of (self r.2)])%list
      | Raise _ => written st
      end.
Proof.
  destruct (FormFieldModel_save_run json_loads json_dumps slugify
              formfield_registry st) as (l & extra & _ & Hrun).
  simpl in Hrun. simpl. rewrite Hrun. clear Hrun.
  destruct (named_columns slugify (self st)) as (Hft & Hlb & _ & _ & _).
  destruct (named_more_columns (self st)) as (Hpf & Hpos).
  destruct (formfield_registry !! field_type (self st)) as [cls|]; [|done].
  destruct ((heap st ++ extra)%list !!! l); try done.
  by destruct (decide _).
Qed.

(** The value [save] reads from [options] on an instance in sync. *)
Lemma in_sync_options_value (st st1 : state) (l : loc) :
  cache_in_sync st → options st = (Ok l, st1) →
  heap st1 !! l = Some (decode_blob (_options (self st))).
Proof.
  intros Hsync Hopt.
  destruct (options_run json_loads st) as (l2 & extra & Hopt2 & Hv).
  rewrite Hopt in Hopt2. injection Hopt2 as -> ->. simpl.
  unfold cache_in_sync in Hsync.
  destruct (_options_cached (self st)) as [l0|]; [|done].
  destruct Hv as [-> ->]. by rewrite app_nil_r.
Qed.

Lemma named_in_sync (st : state) :
  cache_in_sync st →
  cache_in_sync (mkState (named (self st)) (heap st) (written st)).
Proof.
  destruct (named_columns slugify (self st)) as (_ & _ & Hblob & Hcache & _).
  unfold cache_in_sync. simpl. by rewrite Hcache, Hblob.
Qed.


(** X13: if the dictionary that the instance has cached holds no
    undeclared key, [save] writes the blob column as it stands.  Changes
    made in place to the dictionary that [options] returned are therefore
    not persisted: the row carries the old blob. *)
Theorem FormFieldModel_save_keeps_blob (st : state) (l : loc)
    (d : dict json) (cls : FieldType Field Form) :
  _options_cached (self st) = Some l →
  heap st !! l = Some (JObj d) →
  formfield_registry !! field_type (self st) = Some cls →
  invalid_keys d cls = ∅ →
  ∃ st' row,
    FormFieldModel_save st = (Ok tt, st')
    ∧ written st' = (written st ++ [row])%list
    ∧ row_options row = _options (self st)
    ∧ heap st' = heap st.
Proof.
  intros Hc Hl Hreg Hinv.
  destruct (FormFieldModel_save_run json_loads json_dumps slugify
              formfield_registry st) as (l2 & extra & Hopt & Hrun).
  simpl in Hopt, Hrun. rewrite Hrun, Hreg. clear Hrun.
  destruct (named_columns slugify (self st)) as (_ & _ & Hblob & Hcache & _).
  rewrite (options_cached json_loads _ l) in Hopt
    by (simpl; by rewrite Hcache).
  assert (l2 = l) as -> by congruence.
  assert (extra = []) as ->.
  { pose proof (f_equal (λ p, length (heap p.2)) Hopt) as Hh.
    simpl in Hh. rewrite length_app in Hh.
    destruct extra; [done|simpl in Hh; lia]. }
  rewrite app_nil_r, (list_lookup_total_correct _ _ _ Hl).
  rewrite decide_True by done.
  eexists _, _. split; [reflexivity|]. simpl. split; [done|].
  split; [exact Hblob|done].
Qed.



(** X15: the cache, once it agrees with the blob, keeps agreeing with it
    through the getter, the setter and a [save] that returns. *)
Theorem cache_in_sync_kept (st : state) :
  cache_in_sync st →
  cache_in_sync (options st).2
  ∧ (∀ l, cache_in_sync (set_options l st).2)
  ∧ ((FormFieldModel_save st).1 = Ok tt →
     cache_in_sync (FormFieldModel_save st).2).
Proof.
  intros Hsync. split; [|split].
  - destruct (options st) as [[l|e] st1] eqn:Hopt.
    + by apply (options_in_sync json_loads st st1 l).
    + destruct (options_run json_loads st) as (l & extra & Hopt2 & _).
      congruence.
  - intros l. apply set_options_in_sync.
  - destruct (FormFieldModel_save st) as [o st1] eqn:Hsave. simpl.
    intros ->.
    by apply (FormFieldModel_save_in_sync json_loads json_dumps slugify
                formfield_registry st st1).
Qed.

Lemma invalid_keys_filter (d : dict json) (cls : FieldType Field Form) :
  invalid_keys (filter (λ kv, kv.1 ∈ _meta cls) d) cls = ∅.
Proof.
  unfold invalid_keys. apply set_eq. intros k.
  rewrite elem_of_difference, !elem_of_list_to_set. split.
  - intros [Hk Hm]. exfalso. apply Hm.
    unfold dict_keys in Hk. apply list_elem_of_fmap in Hk as (kv & -> & Hkv).
    by apply list_elem_of_filter in Hkv as [? _].
  - intros Hk. by apply not_elem_of_empty in Hk.
Qed.

(** [save] on an instance in sync whose options hold declared keys only. *)
Lemma FormFieldModel_save_clean (st : state) (cls : FieldType Field Form)
    (d : dict json) :
  cache_in_sync st →
  formfield_registry !! field_type (self st) = Some cls →
  decode_blob (_options (self st)) = JObj d →
  invalid_keys d cls = ∅ →
  ∃ st', FormFieldModel_save st = (Ok tt, st')
         ∧ written st' = (written st ++ [row_of (named (self st))])%list.
Proof.
  intros Hsync Hreg Hd Hinv.
  destruct (FormFieldModel_save_run json_loads json_dumps slugify
              formfield_registry st) as (l & extra & Hopt & Hrun).
  simpl in Hopt, Hrun. rewrite Hrun, Hreg. clear Hrun.
  pose proof (in_sync_options_value _ _ _ (named_in_sync st Hsync) Hopt)
    as Hv.
  destruct (named_columns slugify (self st)) as (_ & _ & Hblob & _ & _).
  simpl in Hv. rewrite Hblob, Hd in Hv.
  rewrite (list_lookup_total_correct _ _ _ Hv), decide_True by done.
  by eexists.
Qed.

Hypothesis json_roundtrip :
  ∀ v, wf_json v → json_loads (json_dumps v) = Some v.
Hypothesis json_loads_wf : ∀ s v, json_loads s = Some v → wf_json v.
Hypothesis json_dumps_truthy : ∀ v, truthy (json_dumps v) = true.

(** X16: saving a field definition that has just been saved writes the
    same row again: the derived name and the sanitized options are stable
    under [save]. *)
Theorem FormFieldModel_save_twice (st st1 : state) :
  cache_in_sync st →
  FormFieldModel_save st = (Ok tt, st1) →
  ∃ st2 row,
    written st1 = (written st ++ [row])%list
    ∧ FormFieldModel_save st1 = (Ok tt, st2)
    ∧ written st2 = (written st1 ++ [row])%list.
Proof using Type json_roundtrip json_loads_wf json_dumps_truthy.
  intros Hsync Hsave.
  pose proof (FormFieldModel_save_in_sync json_loads json_dumps slugify
                formfield_registry st st1 Hsync Hsave) as Hsync1.
  destruct (FormFieldModel_save_run json_loads json_dumps slugify
              formfield_registry st) as (l & extra & Hopt & Hrun).
  simpl in Hopt, Hrun. rewrite Hrun in Hsave. clear Hrun.
  pose proof (in_sync_options_value _ _ _ (named_in_sync st Hsync) Hopt)
    as Hv.
  destruct (named_columns slugify (self st)) as (Hft & _ & Hblob & _ & _).
  simpl in Hv. rewrite Hblob in Hv.
  rewrite (list_lookup_total_correct _ _ _ Hv) in Hsave.
  destruct (formfield_registry !! field_type (self st)) as [cls|] eqn:Hreg;
    [|discriminate].
  pose proof (decode_blob_wf json_loads json_loads_wf (_options (self st)))
    as Hwf.
  destruct (decode_blob (_options (self st))) as [| | | | |d] eqn:Hd;
    try discriminate.
  destruct (decide (invalid_keys d cls = ∅)) as [Hinv|Hinv];
    injection Hsave as <-.
  - destruct (FormFieldModel_save_clean
                (mkState (with_cached (Some l) (named (self st)))
                   (heap st ++ extra) (written st ++ [row_of (named (self st))]))
                cls d) as (st2 & Hsave2 & Hw2); simpl; try done.
    + by rewrite Hft.
    + by rewrite Hblob.
    + exists st2, (row_of (named (self st))). split; [done|].
      split; [exact Hsave2|]. rewrite Hw2. simpl.
      by rewrite named_with_cached, named_idem.
  - set (d' := filter (λ kv, kv.1 ∈ _meta cls) d) in *.
    set (f3 := with_options (Some (json_dumps (JObj d')))
                 (with_cached None (named (self st)))) in *.
    destruct (FormFieldModel_save_clean
                (mkState f3 (<[l := JObj d']> (heap st ++ extra)%list)
                   (written st ++ [row_of f3]))
                cls d') as (st2 & Hsave2 & Hw2); simpl; try done.
    + by rewrite Hft.
    + apply (decode_dumps json_loads json_dumps json_roundtrip
               json_dumps_truthy).
      by apply wf_json_filter.
    + apply invalid_keys_filter.
    + exists st2, (row_of f3). split; [done|].
      split; [exact Hsave2|]. rewrite Hw2. simpl. unfold f3.
      by rewrite named_with_options, named_with_cached, named_idem.
Qed.

(** *** pretty_value *)

Lemma ascii_compare_lt_trans (x y z : ascii) :
  Ascii.compare x y = Lt → Ascii.compare y z = Lt → Ascii.compare x z = Lt.
Proof.
  unfold Ascii.compare. rewrite !N.compare_lt_iff. apply N.lt_trans.
Qed.

Lemma string_compare_lt_trans (a b c : string) :
  String.compare a b = Lt → String.compare b c = Lt →
  String.compare a c = Lt.
Proof.
  revert b c. induction a as [|x a IH]; intros [|y b] [|z c]; simpl;
    try done.
  destruct (Ascii.compare x y) eqn:Exy; try done.
  - apply Ascii.compare_eq_iff in Exy as ->.
    destruct (Ascii.compare y z); try done. apply IH.
  - intros _. destruct (Ascii.compare y z) eqn:Eyz; try done.
    + apply Ascii.compare_eq_iff in Eyz as <-. by rewrite Exy.
    + by rewrite (ascii_compare_lt_trans x y z).
Qed.

Lemma string_leb_cases (a b : string) :
  String.leb a b = true ↔ String.compare a b = Lt ∨ a = b.
Proof.
  unfold String.leb. split.
  - destruct (String.compare a b) eqn:E; try done; [|by left].
    right. by apply String.compare_eq_iff.
  - intros [->| ->]; [done|].
    destruct (String.compare b b) eqn:E; try done.
    pose proof (String.compare_antisym b b) as H. rewrite E in H.
    discriminate H.
Qed.

Global Instance key_le_trans : Transitive key_le.
Proof.
  intros a b c. unfold key_le. rewrite !string_leb_cases.
  intros [Hab|Hab] [Hbc|Hbc].
  - left. by eapply string_compare_lt_trans.
  - left. by rewrite <- Hbc.
  - left. by rewrite Hab.
  - right. by rewrite Hab.
Qed.

Lemma nodup_keys_inj {V} (d : dict V) (x y : string * V) :
  NoDup (d.*1) → x ∈ d → y ∈ d → x.1 = y.1 → x = y.
Proof.
  induction d as [|kv d IH]; intros Hnd Hx Hy Hxy.
  - by apply elem_of_nil in Hx.
  - rewrite fmap_cons in Hnd. apply NoDup_cons in Hnd as [Hkv Hnd].
    apply elem_of_cons in Hx as [->|Hx];
      apply elem_of_cons in Hy as [->|Hy]; [done| | |by apply IH].
    + exfalso. apply Hkv. rewrite Hxy. apply list_elem_of_fmap. by exists y.
    + exfalso. apply Hkv. rewrite <- Hxy. apply list_elem_of_fmap.
      by exists x.
Qed.

(** X17: for a value that decodes to a dictionary, [pretty_value] renders
    every item of the dictionary exactly once, between [<dl>] and
    [</dl>], in ascending order of the keys. *)
Theorem pretty_value_sorted (value : string) (d : dict json) :
  json_loads value = Some (JObj d) →
  ∃ items,
    pretty_value value
    = Ok (String.concat ""
            (["<dl>"] ++ map render_item items ++ ["</dl>"]))
    ∧ items ≡ₚ d
    ∧ StronglySorted key_le items.
Proof.
  intros H. exists (merge_sort key_le d). unfold pretty_value. rewrite H.
  split; [done|]. split.
  - apply merge_sort_Permutation.
  - apply StronglySorted_merge_sort; apply _.
Qed.

(** X18: the rendering does not depend on the order in which the keys
    stand in the stored value: two values that decode to dictionaries
    with the same items render to the same text. *)
Theorem pretty_value_key_order (v1 v2 : string) (d1 d2 : dict json) :
  json_loads v1 = Some (JObj d1) →
  json_loads v2 = Some (JObj d2) →
  NoDup (d1.*1) →
  d1 ≡ₚ d2 →
  pretty_value v1 = pretty_value v2.
Proof.
  intros H1 H2 Hnd Hperm. unfold pretty_value. rewrite H1, H2.
  do 5 f_equal.
  apply (StronglySorted_unique_strong key_le).
  - intros x1 x2 Hx1 Hx2 H12 H21.
    rewrite merge_sort_Permutation in Hx1.
    rewrite merge_sort_Permutation, <- Hperm in Hx2.
    apply (nodup_keys_inj d1); [done..|].
    by apply String.leb_antisym.
  - apply StronglySorted_merge_sort; apply _.
  - apply StronglySorted_merge_sort; apply _.
  - by rewrite !merge_sort_Permutation.
Qed.

(** *** How the operations compose *)

Lemma dict_get_Some_key {V} (k : string) (v : V) (d : dict V) :
  dict_get k d = Some v → k ∈ dict_keys d.
Proof.
  unfold dict_keys. induction d as [|[k' v'] d IH]; simpl; [done|].
  destruct (String.eqb_spec k k') as [->|Hne].
  - intros _. left.
  - intros H. right. by apply IH.
Qed.

Lemma filter_dict_set (Q : string → Prop) `{!∀ k, Decision (Q k)}
    (k : string) (v : json) (d : dict json) :
  ¬ Q k →
  filter (λ kv, Q kv.1) (dict_set k v d) = filter (λ kv, Q kv.1) d.
Proof.
  intros Hk. induction d as [|[k' v'] d IH]; simpl.
  - by rewrite filter_cons_False.
  - destruct (String.eqb_spec k k') as [->|Hne].
    + by rewrite !filter_cons_False.
    + rewrite !filter_cons. simpl. by rewrite IH.
Qed.

(** [save] on an instance whose cache holds a dictionary. *)
Lemma FormFieldModel_save_cached (st : state) (l : loc) (d : dict json)
    (cls : FieldType Field Form) :
  _options_cached (self st) = Some l →
  heap st !! l = Some (JObj d) →
  formfield_registry !! field_type (self st) = Some cls →
  FormFieldModel_save st
  = if decide (invalid_keys d cls = ∅) then
      (Ok tt, mkState (named (self st)) (heap st)
                (written st ++ [row_of (named (self st))]))
    else
      let d' := filter (λ kv, kv.1 ∈ _meta cls) d in
      let f3 := with_options (Some (json_dumps (JObj d')))
                  (with_cached None (named (self st))) in
      (Ok tt, mkState f3 (<[l := JObj d']> (heap st))
                (written st ++ [row_of f3])).
Proof.
  intros Hc Hl Hreg.
  destruct (FormFieldModel_save_run json_loads json_dumps slugify
              formfield_registry st) as (l2 & extra & Hopt & Hrun).
  simpl in Hopt, Hrun. rewrite Hrun, Hreg. clear Hrun.
  destruct (named_columns slugify (self st)) as (_ & _ & _ & Hcache & _).
  rewrite Hc in Hcache.
  rewrite (options_cached json_loads _ l) in Hopt by done.
  assert (l2 = l) as -> by congruence.
  assert (extra = []) as ->.
  { pose proof (f_equal (λ p, length (heap p.2)) Hopt) as Hh.
    simpl in Hh. rewrite length_app in Hh.
    destruct extra; [done|simpl in Hh; lia]. }
  rewrite app_nil_r, (list_lookup_total_correct _ _ _ Hl).
  by rewrite <- Hcache, with_cached_same.
Qed.

(** X20: [save] after [generate_form_field].  For a field type whose
    schema declares neither [name] nor [label], the two keys that
    [generate_form_field] left in the cached dictionary do not reach the
    store: the row holds the options the instance had before the call,
    restricted to the declared keys. *)
Theorem save_after_generate_form_field (st : state) (form : Form)
    (cls : FieldType Field Form) (d : dict json) :
  _options_cached (self st) = None →
  formfield_registry !! field_type (self st) = Some cls →
  decode_blob (_options (self st)) = JObj d →
  "name" ∉ _meta cls → "label" ∉ _meta cls →
  ∃ st2 row,
    FormFieldModel_save (generate_form_field form st).2 = (Ok tt, st2)
    ∧ written st2 = (written st ++ [row])%list
    ∧ decode_blob (row_options row)
      = JObj (filter (λ kv, kv.1 ∈ _meta cls) d).
Proof using Type json_roundtrip json_loads_wf json_dumps_truthy.
  intros Hc Hreg Hd Hname Hlabel.
  destruct (generate_form_field_run json_loads formfield_registry
              st form cls d Hc Hreg Hd) as (l & extra & -> & Hl).
  set (kw := kwargs_of (self st) d) in *. simpl.
  rewrite (FormFieldModel_save_cached _ l kw cls); [|done|exact Hl|done].
  assert (Hfilter : filter (λ kv, kv.1 ∈ _meta cls) kw
                    = filter (λ kv, kv.1 ∈ _meta cls) d).
  { change kw
      with (dict_set "label" (JStr (label (self st)))
              (dict_set "name" (JStr (name (self st))) d)).
    etrans.
    - exact (filter_dict_set (λ k, k ∈ _meta cls) "label" _ _ Hlabel).
    - exact (filter_dict_set (λ k, k ∈ _meta cls) "name" _ _ Hname). }
  rewrite decide_False.
  - eexists _, _. split; [reflexivity|]. simpl. split; [done|].
    rewrite Hfilter.
    apply (decode_dumps json_loads json_dumps json_roundtrip
             json_dumps_truthy).
    apply wf_json_filter. rewrite <- Hd.
    apply (decode_blob_wf json_loads json_loads_wf).
  - intros Hempty.
    destruct (kwargs_of_get (self st) d) as (Hn & _ & _).
    apply dict_get_Some_key in Hn.
    assert (Hin : "name" ∈ invalid_keys kw cls).
    { unfold invalid_keys. apply elem_of_difference.
      by rewrite !elem_of_list_to_set. }
    rewrite Hempty in Hin. by apply not_elem_of_empty in Hin.
Qed.

(** [save] on an instance in sync with a registered field type and
    options that decode to a dictionary. *)
Lemma FormFieldModel_save_stored (st : state) (cls : FieldType Field Form)
    (d : dict json) :
  cache_in_sync st →
  formfield_registry !! field_type (self st) = Some cls →
  decode_blob (_options (self st)) = JObj d →
  ∃ st' row,
    FormFieldModel_save st = (Ok tt, st')
    ∧ written st' = (written st ++ [row])%list
    ∧ row_name row = name (named (self st))
    ∧ decode_blob (row_options row)
      = JObj (filter (λ kv, kv.1 ∈ _meta cls) d).
Proof using Type json_roundtrip json_loads_wf json_dumps_truthy.
  intros Hsync Hreg Hd.
  destruct (FormFieldModel_save_run json_loads json_dumps slugify
              formfield_registry st) as (l & extra & Hopt & Hrun).
  simpl in Hopt, Hrun. rewrite Hrun, Hreg. clear Hrun.
  pose proof (in_sync_options_value _ _ _ (named_in_sync st Hsync) Hopt)
    as Hv.
  destruct (named_columns slugify (self st)) as (_ & _ & Hblob & _ & _).
  simpl in Hv. rewrite Hblob, Hd in Hv.
  rewrite (list_lookup_total_correct _ _ _ Hv).
  destruct (decide (invalid_keys d cls = ∅)) as [Hinv|Hinv];
    eexists _, _; (split; [reflexivity|]); simpl;
    (split; [done|]); (split; [done|]).
  - change (row_options (row_of (named (self st))))
      with (_options (named (self st))).
    rewrite Hblob, Hd. f_equal. symmetry. apply filter_all.
    intros [k v] Hin. simpl.
    destruct (decide (k ∈ _meta cls)) as [|Hk]; [done|].
    assert (Hbad : k ∈ invalid_keys d cls).
    { unfold invalid_keys. apply elem_of_difference.
      rewrite !elem_of_list_to_set. split; [|done].
      unfold dict_keys. apply list_elem_of_fmap. by exists (k, v). }
    rewrite Hinv in Hbad. by apply not_elem_of_empty in Hbad.
  - apply (decode_dumps json_loads json_dumps json_roundtrip
             json_dumps_truthy).
    apply wf_json_filter. rewrite <- Hd.
    apply (decode_blob_wf json_loads json_loads_wf).
Qed.

(** X21: assigning a dictionary to [options] and saving, for a registered
    field type: the call returns, writes one row, and the row holds the
    assigned dictionary restricted to the declared keys, whatever the
    instance had cached or stored before. *)
Theorem save_after_set_options (st : state) (l : loc) (m : dict json)
    (cls : FieldType Field Form) :
  heap st !! l = Some (JObj m) →
  wf_json (JObj m) →
  formfield_registry !! field_type (self st) = Some cls →
  ∃ st2 row,
    (set_options l ;; FormFieldModel_save) st = (Ok tt, st2)
    ∧ written st2 = (written st ++ [row])%list
    ∧ decode_blob (row_options row)
      = JObj (filter (λ kv, kv.1 ∈ _meta cls) m).
Proof using Type json_roundtrip json_loads_wf json_dumps_truthy.
  intros Hl Hwf Hreg. unfold bind.
  rewrite (set_options_run json_dumps), (list_lookup_total_correct _ _ _ Hl).
  set (st1 := mkState _ _ _).
  destruct (FormFieldModel_save_stored st1 cls m)
    as (st2 & row & Hsave & Hw & _ & Hrow).
  - exact I.
  - exact Hreg.
  - apply (decode_dumps json_loads json_dumps json_roundtrip
             json_dumps_truthy). exact Hwf.
  - by exists st2, row.
Qed.

(** A dictionary without undeclared key is its own restriction to the
    declared keys. *)
Lemma filter_declared (d : dict json) (cls : FieldType Field Form) :
  invalid_keys d cls = ∅ → filter (λ kv, kv.1 ∈ _meta cls) d = d.
Proof.
  intros Hinv. apply filter_all. intros [k v] Hin. simpl.
  destruct (decide (k ∈ _meta cls)) as [|Hk]; [done|].
  assert (Hbad : k ∈ invalid_keys d cls).
  { unfold invalid_keys. apply elem_of_difference.
    rewrite !elem_of_list_to_set. split; [|done].
    unfold dict_keys. apply list_elem_of_fmap. by exists (k, v). }
  rewrite Hinv in Hbad. by apply not_elem_of_empty in Hbad.
Qed.

(** C1, as amended: [save] on an instance of a registered field type
    whose [options] are the dictionary [c].  When [c] holds a key that
    the schema does not declare, or when [c] is what the blob of the
    instance decodes to, [save] returns and writes one row, and the
    options stored in the row are [c] restricted to the declared keys:
    the declared keys keep their values and their order, every other key
    is gone.  The case left out is a cached dictionary that was changed
    in place and holds no undeclared key: [save] serializes the options
    only under [if invalid], so the blob is written as it stands.
    [wf_json] says of [c] what holds of every Python dictionary: no key
    occurs twice, at any depth. *)
Theorem save_sanitizes_current_options (st st1 : state) (l : loc)
    (c : dict json) (cls : FieldType Field Form) :
  options st = (Ok l, st1) →
  heap st1 !! l = Some (JObj c) →
  wf_json (JObj c) →
  formfield_registry !! field_type (self st) = Some cls →
  invalid_keys c cls ≠ ∅ ∨ decode_blob (_options (self st)) = JObj c →
  ∃ st' row,
    FormFieldModel_save st = (Ok tt, st')
    ∧ written st' = (written st ++ [row])%list
    ∧ decode_blob (row_options row)
      = JObj (filter (λ kv, kv.1 ∈ _meta cls) c).
Proof using Type json_roundtrip json_loads_wf json_dumps_truthy.
  intros Hopt Hl Hwf Hreg Hcase.
  destruct (_options_cached (self st)) as [l0|] eqn:Hc.
  - rewrite (options_cached json_loads st l0 Hc) in Hopt.
    injection Hopt as <- <-.
    rewrite (FormFieldModel_save_cached st l0 c cls Hc Hl Hreg).
    destruct (named_columns slugify (self st)) as (_ & _ & Hblob & _ & _).
    destruct (decide (invalid_keys c cls = ∅)) as [Hinv|Hinv];
      eexists _, _; (split; [reflexivity|]); simpl; (split; [done|]).
    + destruct Hcase as [Hne|Hd]; [done|].
      change (row_options (row_of (named (self st))))
        with (_options (named (self st))).
      by rewrite Hblob, Hd, filter_declared.
    + apply (decode_dumps json_loads json_dumps json_roundtrip
               json_dumps_truthy).
      by apply wf_json_filter.
  - destruct (options_run_fresh st Hc) as (l2 & extra & Hopt2 & _ & Hv).
    rewrite Hopt in Hopt2. injection Hopt2 as -> ->. simpl in Hl.
    assert (Hd : decode_blob (_options (self st)) = JObj c) by congruence.
    destruct (FormFieldModel_save_stored st cls c)
      as (st' & row & Hsave & Hw & _ & Hrow).
    + unfold cache_in_sync. by rewrite Hc.
    + exact Hreg.
    + exact Hd.
    + by exists st', row.
Qed.

End FieldProperties.

Section FieldsProperties.

Lemma dict_get_snoc {V} (k k' : string) (v : V) (d : dict V) :
  dict_get k (d ++ [(k', v)])
  = match dict_get k d with
    | Some x => Some x
    | None => if String.eqb k k' then Some v else None
    end.
Proof.
  induction d as [|[k2 v2] d IH]; simpl; [done|].
  by destruct (String.eqb k k2).
Qed.

Lemma dict_get_update_last {V} (k : string) (pairs d : dict V) :
  dict_get k (dict_update d pairs)
  = match dict_get k (reverse pairs) with
    | Some x => Some x
    | None => dict_get k d
    end.
Proof.
  unfold dict_update. revert d.
  induction pairs as [|[k' v'] pairs IH]; intros d; simpl; [done|].
  rewrite IH, reverse_cons, dict_get_snoc.
  destruct (dict_get k (reverse pairs)); [done|].
  destruct (String.eqb_spec k k') as [->|Hne].
  - apply dict_get_set_eq.
  - by apply dict_get_set_ne.
Qed.

(** X19: [get_fields_as_dict] has one entry for each name that occurs
    among the rows of the query, and no other; when several rows carry
    the same name, the entry holds the label of the last of them. *)
Theorem get_fields_as_dict_lookup (rows : list StoredField) (n : string) :
  NoDup (dict_keys (get_fields_as_dict rows))
  ∧ (n ∈ dict_keys (get_fields_as_dict rows)
     ↔ n ∈ map (λ r, row_name (columns r)) rows)
  ∧ dict_get n (get_fields_as_dict rows)
    = dict_get n (reverse (values_list_name_label rows)).
Proof.
  unfold get_fields_as_dict, dict_of_pairs.
  assert (Hkeys : ∀ (pairs d : dict string),
            NoDup (d.*1) →
            NoDup ((dict_update d pairs).*1)
            ∧ ∀ k, k ∈ (dict_update d pairs).*1 ↔ k ∈ d.*1 ∨ k ∈ pairs.*1).
  { unfold dict_update. induction pairs as [|[k v] pairs IH]; intros d Hnd.
    - simpl. split; [done|]. intros k. rewrite elem_of_nil. tauto.
    - simpl. specialize (IH (dict_set k v d)).
      rewrite dict_set_keys in IH.
      destruct (decide (k ∈ d.*1)) as [Hin|Hin].
      + destruct (IH Hnd) as [Hnd' Hk]. split; [done|].
        intros k0. rewrite Hk, elem_of_cons.
        split; [tauto|]. intros [?|[->|?]]; tauto.
      + destruct IH as [Hnd' Hk].
        { apply NoDup_app. split; [done|]. split; [|apply NoDup_singleton].
          by intros x Hx ->%list_elem_of_singleton. }
        split; [done|]. intros k0.
        rewrite Hk, elem_of_app, list_elem_of_singleton, elem_of_cons.
        tauto. }
  destruct (Hkeys (values_list_name_label rows) []) as [Hnd Hk];
    [constructor|].
  split; [exact Hnd|]. split.
  - unfold dict_keys. rewrite Hk. unfold values_list_name_label.
    rewrite <- list_fmap_compose. simpl. rewrite elem_of_nil. tauto.
  - rewrite dict_get_update_last. by destruct (dict_get n _).
Qed.

End FieldsProperties.

(** ** Instances of the further properties *)

Section MoreSamples.
Import Sample.

Lemma options_ignores_blob_assignment_witness :
  options plain_state = (Ok 1%nat, (options plain_state).2)
  ∧ (modify_self (with_options None) ;; options) (options plain_state).2
    = (Ok 1%nat,
       mkState (with_options None (self (options plain_state).2))
         (heap (options plain_state).2) (written (options plain_state).2)).
Proof.
  split; [vm_compute; reflexivity|].
  apply (options_ignores_blob_assignment Ref.json_loads plain_state).
  vm_compute. reflexivity.
Defined.

Lemma options_set_get_fresh_object_witness :
  heap assign_state !! 0%nat = Some (JObj with_bogus)
  ∧ ∃ st1 l' st2,
      set_options Ref.json_dumps 0%nat assign_state = (Ok tt, st1)
      ∧ options st1 = (Ok l', st2)
      ∧ l' ≠ 0%nat
      ∧ heap st2 !! 0%nat = Some (JObj with_bogus).
Proof.
  split; [reflexivity|].
  apply (options_set_get_fresh_object Ref.json_loads Ref.json_dumps).
  reflexivity.
Defined.

Lemma get_form_field_kwargs_content_witness :
  _options_cached (self plain_state) = None
  ∧ decode_blob Ref.json_loads (_options (self plain_state))
    = JObj max_length_50
  ∧ ∃ l st' kw,
      get_form_field_kwargs Ref.json_loads plain_state = (Ok l, st')
      ∧ _options_cached (self st') = Some l
      ∧ heap st' !! l = Some (JObj kw)
      ∧ dict_get "name" kw = Some (JStr (name (self plain_state)))
      ∧ dict_get "label" kw = Some (JStr (label (self plain_state)))
      ∧ ∀ k, k ≠ "name" → k ≠ "label" →
             dict_get k kw = dict_get k max_length_50.
Proof.
  split; [reflexivity|]. split; [vm_compute; reflexivity|].
  apply (get_form_field_kwargs_content Ref.json_loads plain_state).
  - reflexivity.
  - vm_compute. reflexivity.
Defined.

Lemma generate_form_field_result_witness :
  _options_cached (self plain_state) = None
  ∧ registry !! field_type (self plain_state) = Some text_field
  ∧ decode_blob Ref.json_loads (_options (self plain_state))
    = JObj max_length_50
  ∧ (generate [] plain_state).1
    = Ok ([("max_length", JNum 50); ("name", JStr "full-name");
           ("label", JStr "Full Name")],
          [[("max_length", JNum 50); ("name", JStr "full-name");
            ("label", JStr "Full Name")]]).
Proof.
  split; [reflexivity|]. split; [vm_compute; reflexivity|].
  split; [vm_compute; reflexivity|].
  apply (generate_form_field_result Ref.json_loads registry plain_state []
           text_field max_length_50).
  - reflexivity.
  - vm_compute. reflexivity.
  - vm_compute. reflexivity.
Defined.




Lemma invalid_keys_mutated :
  invalid_keys [("max_length", JNum 60)] text_field = ∅.
Proof.
  apply set_eq. intros k. unfold invalid_keys.
  rewrite elem_of_difference, !elem_of_list_to_set. simpl.
  split; [tauto|]. intros Hk. by apply not_elem_of_empty in Hk.
Qed.

Lemma FormFieldModel_save_keeps_blob_witness :
  _options_cached (self mutated_state) = Some 0%nat
  ∧ heap mutated_state !! 0%nat = Some (JObj [("max_length", JNum 60)])
  ∧ registry !! field_type (self mutated_state) = Some text_field
  ∧ ∃ st' row,
      save mutated_state = (Ok tt, st')
      ∧ written st' = (written mutated_state ++ [row])%list
      ∧ row_options row = Some (Ref.json_dumps (JObj max_length_50))
      ∧ heap st' = heap mutated_state.
Proof.
  split; [reflexivity|]. split; [reflexivity|].
  split; [vm_compute; reflexivity|].
  apply (FormFieldModel_save_keeps_blob Ref.json_loads Ref.json_dumps
           Ref.slugify registry mutated_state 0%nat
           [("max_length", JNum 60)] text_field).
  - reflexivity.
  - reflexivity.
  - vm_compute. reflexivity.
  - exact invalid_keys_mutated.
Defined.


Lemma cache_in_sync_kept_witness :
  cache_in_sync Ref.json_loads plain_state
  ∧ (save plain_state).1 = Ok tt
  ∧ cache_in_sync Ref.json_loads (options plain_state).2
  ∧ cache_in_sync Ref.json_loads
      (set_options Ref.json_dumps 0%nat plain_state).2
  ∧ cache_in_sync Ref.json_loads (save plain_state).2.
Proof.
  split; [exact I|]. split; [vm_compute; reflexivity|].
  pose proof (cache_in_sync_kept Ref.json_loads Ref.json_dumps Ref.slugify
                registry plain_state I) as (Hget & Hset & Hsave).
  split; [exact Hget|]. split; [apply Hset|].
  apply Hsave. vm_compute. reflexivity.
Defined.

Lemma FormFieldModel_save_twice_witness :
  cache_in_sync Ref.json_loads bogus_state
  ∧ save bogus_state = (Ok tt, (save bogus_state).2)
  ∧ ∃ st2 row,
      written (save bogus_state).2 = (written bogus_state ++ [row])%list
      ∧ save (save bogus_state).2 = (Ok tt, st2)
      ∧ written st2 = (written (save bogus_state).2 ++ [row])%list.
Proof.
  split; [exact I|]. split; [vm_compute; reflexivity|].
  apply (FormFieldModel_save_twice Ref.json_loads Ref.json_dumps Ref.slugify
           registry ref_json_roundtrip ref_json_loads_wf
           ref_json_dumps_truthy bogus_state (save bogus_state).2).
  - exact I.
  - vm_compute. reflexivity.
Defined.

Lemma pretty_value_sorted_witness :
  Ref.json_loads value_ba = Some (JObj items_ba)
  ∧ ∃ items,
      pretty value_ba
      = Ok (String.concat ""
              (["<dl>"] ++ map (render_item Ref.escape Ref.force_text) items
               ++ ["</dl>"]))
      ∧ items ≡ₚ items_ba
      ∧ StronglySorted key_le items.
Proof.
  split; [vm_compute; reflexivity|].
  apply (pretty_value_sorted Ref.json_loads Ref.escape Ref.force_text
           value_ba items_ba).
  vm_compute. reflexivity.
Defined.

Lemma pretty_value_key_order_witness :
  Ref.json_loads value_ba = Some (JObj items_ba)
  ∧ Ref.json_loads value_ab = Some (JObj items_ab)
  ∧ NoDup (items_ba.*1)
  ∧ items_ba ≡ₚ items_ab
  ∧ pretty value_ba = pretty value_ab.
Proof.
  assert (Hnd : NoDup (items_ba.*1)).
  { apply NoDup_cons. split; [|apply NoDup_singleton].
    intros Hin%list_elem_of_singleton. discriminate Hin. }
  split; [vm_compute; reflexivity|]. split; [vm_compute; reflexivity|].
  split; [exact Hnd|]. split; [apply perm_swap|].
  apply (pretty_value_key_order Ref.json_loads Ref.escape Ref.force_text
           value_ba value_ab items_ba items_ab).
  - vm_compute. reflexivity.
  - vm_compute. reflexivity.
  - exact Hnd.
  - apply perm_swap.
Defined.

Lemma text_field_declares_max_length_only (k : string) :
  k ≠ "max_length" → k ∉ _meta text_field.
Proof. intros Hk Hin%list_elem_of_singleton. done. Qed.

Lemma save_after_generate_form_field_witness :
  _options_cached (self bogus_state) = None
  ∧ registry !! field_type (self bogus_state) = Some text_field
  ∧ decode_blob Ref.json_loads (_options (self bogus_state))
    = JObj with_bogus
  ∧ ∃ st2 row,
      save (generate [] bogus_state).2 = (Ok tt, st2)
      ∧ written st2 = (written bogus_state ++ [row])%list
      ∧ decode_blob Ref.json_loads (row_options row)
        = JObj (filter (λ kv, kv.1 ∈ _meta text_field) with_bogus).
Proof.
  split; [reflexivity|]. split; [vm_compute; reflexivity|].
  split; [vm_compute; reflexivity|].
  apply (save_after_generate_form_field Ref.json_loads Ref.json_dumps
           Ref.slugify registry ref_json_roundtrip ref_json_loads_wf
           ref_json_dumps_truthy bogus_state [] text_field with_bogus).
  - reflexivity.
  - vm_compute. reflexivity.
  - vm_compute. reflexivity.
  - by apply text_field_declares_max_length_only.
  - by apply text_field_declares_max_length_only.
Defined.

Lemma save_after_set_options_witness :
  heap assign_state !! 0%nat = Some (JObj with_bogus)
  ∧ wf_json (JObj with_bogus)
  ∧ registry !! field_type (self assign_state) = Some text_field
  ∧ ∃ st2 row,
      (set_options Ref.json_dumps 0%nat ;; save) assign_state = (Ok tt, st2)
      ∧ written st2 = (written assign_state ++ [row])%list
      ∧ decode_blob Ref.json_loads (row_options row)
        = JObj (filter (λ kv, kv.1 ∈ _meta text_field) with_bogus).
Proof.
  assert (Hwf : wf_json (JObj with_bogus)).
  { apply wf_json_obj. split.
    - apply NoDup_cons. split; [|apply NoDup_singleton].
      intros Hin%list_elem_of_singleton. discriminate Hin.
    - repeat constructor. }
  split; [reflexivity|]. split; [exact Hwf|].
  split; [vm_compute; reflexivity|].
  apply (save_after_set_options Ref.json_loads Ref.json_dumps Ref.slugify
           registry ref_json_roundtrip ref_json_loads_wf
           ref_json_dumps_truthy assign_state 0%nat with_bogus text_field).
  - reflexivity.
  - exact Hwf.
  - vm_compute. reflexivity.
Defined.

(** C1, counterexample: a text field, whose schema declares [max_length]
    only, is loaded with the options [{max_length: 50, bogus: 1}]; the
    key [bogus] is deleted from [self.options] in place, and the instance
    is saved.  [save] finds no undeclared key in the options, does not
    serialize them, and writes the blob it was loaded with: the options
    stored in the row hold the key [bogus], which the schema does not
    declare. *)
Lemma save_after_delete_counterexample :
  (read_options bogus_state).1 = Ok (JObj with_bogus)
  ∧ (read_options pruned_state).1 = Ok (JObj max_length_50)
  ∧ registry !! field_type (self pruned_state) = Some text_field
  ∧ ∃ st' row,
      save pruned_state = (Ok tt, st')
      ∧ written st' = [row]
      ∧ decode_blob Ref.json_loads (row_options row) = JObj with_bogus
      ∧ dict_get "bogus" with_bogus = Some (JNum 1)
      ∧ "bogus" ∉ _meta text_field.
Proof.
  split; [vm_compute; reflexivity|]. split; [vm_compute; reflexivity|].
  split; [vm_compute; reflexivity|].
  eexists _, _. split; [vm_compute; reflexivity|].
  split; [reflexivity|]. split; [vm_compute; reflexivity|].
  split; [reflexivity|]. by apply text_field_declares_max_length_only.
Qed.

Lemma save_sanitizes_current_options_witness :
  options generated_state = (Ok 1%nat, generated_state)
  ∧ heap generated_state !! 1%nat
    = Some (JObj generated_options)
  ∧ ∃ st' row,
      save generated_state = (Ok tt, st')
      ∧ written st' = (written generated_state ++ [row])%list
      ∧ decode_blob Ref.json_loads (row_options row)
        = JObj (filter (λ kv, kv.1 ∈ _meta text_field) generated_options).
Proof.
  split; [vm_compute; reflexivity|]. split; [vm_compute; reflexivity|].
  apply (save_sanitizes_current_options Ref.json_loads Ref.json_dumps
           Ref.slugify registry ref_json_roundtrip ref_json_loads_wf
           ref_json_dumps_truthy generated_state generated_state 1%nat
           generated_options text_field).
  - vm_compute. reflexivity.
  - vm_compute. reflexivity.
  - apply wf_json_obj. split.
    + apply (bool_decide_unpack _). vm_compute. exact I.
    + repeat constructor.
  - vm_compute. reflexivity.
  - left. intros Hempty.
    assert (Hin : "bogus" ∈ invalid_keys generated_options text_field).
    { unfold invalid_keys. apply elem_of_difference.
      rewrite !elem_of_list_to_set. split.
      - apply (bool_decide_unpack _). vm_compute. exact I.
      - by apply text_field_declares_max_length_only. }
    rewrite Hempty in Hin. by apply not_elem_of_empty in Hin.
Defined.

(** C2, failing input: the blobs [[1]] and [null] are JSON texts, so
    [json.loads] decodes them and raises nothing, and the getter returns
    what they decode to, a list and [None]: the result is neither the
    empty mapping nor a mapping at all.  [generate_form_field] and [save]
    on such an instance then raise [AttributeError]. *)
Theorem options_getter_returns_non_mapping :
  Ref.json_loads "[1]" = Some (JArr [JNum 1])
  ∧ (read_options list_state).1 = Ok (JArr [JNum 1])
  ∧ Ref.json_loads "null" = Some JNull
  ∧ (read_options null_state).1 = Ok JNull
  ∧ (generate [] list_state).1 = Raise AttributeError
  ∧ (save list_state).1 = Raise AttributeError.
Proof. repeat split; vm_compute; reflexivity. Qed.

End MoreSamples.
